(** * VtIo: mode selection and activation of the VT pipe transport

    A shallow embedding of [src/host/VtIo.cpp] (the console host's
    [Microsoft::Console::VirtualTerminal::VtIo] class) and the properties
    of its four member functions: [ParseIoMode], [Initialize],
    [IsUsingVt] and [StartIfNeeded].

    The class talks to three collaborators that live outside the file:
    the kernel (CreateFileW / CloseHandle / GetLastError), the
    constructors of [VtInputThread] and of the three render engines, and
    the renderer ([AddRenderEngine]).  They are modelled by an explicit
    [World] that is threaded through every call, and by an [Oracle] that
    fixes what the collaborators answer. *)

From Stdlib Require Import ZArith String Ascii List Lia.
From stdpp Require Import base decidable option list gmap sets infinite.

Open Scope Z_scope.

(** ** HRESULT, as <winerror.h> has it: a signed 32-bit integer *)

Module Win32.

Definition HRESULT := Z.
Definition DWORD := Z.
Definition WORD := Z.
Definition HANDLE := Z.
Definition COLORREF := Z.

Definition S_OK : HRESULT := 0.
Definition S_FALSE : HRESULT := 1.
(* 0x80004005, 0x80070057 read as signed 32-bit values *)
Definition E_FAIL : HRESULT := 2147500037 - 2 ^ 32.
Definition E_INVALIDARG : HRESULT := 2147942487 - 2 ^ 32.

Definition SUCCEEDED (hr : HRESULT) : bool := 0 <=? hr.
Definition FAILED (hr : HRESULT) : bool := hr <? 0.

(** The cast [(HRESULT)x] of an unsigned 32-bit value, and [(WORD)x]. *)
Definition to_HRESULT (x : Z) : HRESULT := (x + 2 ^ 31) mod 2 ^ 32 - 2 ^ 31.
Definition to_WORD (x : Z) : WORD := x mod 2 ^ 16.

Definition FACILITY_WIN32 : Z := 7.
Definition ERROR_ASSERTION_FAILURE : DWORD := 668.

(** <winerror.h>:
    [(HRESULT)(x) <= 0 ? (HRESULT)(x)
       : (HRESULT)(((x) & 0x0000FFFF) | (FACILITY_WIN32 << 16) | 0x80000000)] *)
Definition HRESULT_FROM_WIN32 (x : DWORD) : HRESULT :=
  if to_HRESULT x <=? 0 then to_HRESULT x
  else to_HRESULT
         (Z.lor (Z.lor (Z.land x 65535) (Z.shiftl FACILITY_WIN32 16)) (2 ^ 31)).

(** WIL's [wil::details::GetLastErrorFailHr], which [RETURN_LAST_ERROR_IF]
    returns: the last error as an HRESULT, where a last error of
    ERROR_SUCCESS (a caller bug) is replaced by ERROR_ASSERTION_FAILURE. *)
Definition GetLastErrorFailHr (last_error : DWORD) : HRESULT :=
  HRESULT_FROM_WIN32
    (if last_error mod 2 ^ 32 =? 0 then ERROR_ASSERTION_FAILURE
     else last_error mod 2 ^ 32).

Definition INVALID_HANDLE_VALUE : HANDLE := -1.
Definition NULL : HANDLE := 0.

Definition GENERIC_READ : DWORD := 2 ^ 31.
Definition GENERIC_WRITE : DWORD := 2 ^ 30.

(** A C++ exception that reaches [CATCH_RETURN()].  WIL turns the
    exception it caught into a failure HRESULT (E_OUTOFMEMORY for
    [std::bad_alloc], the stored code for [wil::ResultException], ...);
    the exception is identified here with that code. *)
Record exception := Exception {
  exn_hr : HRESULT;
  exn_failed : FAILED exn_hr = true
}.

End Win32.
Import Win32.

(** ** Wide strings *)

(** [std::wstring]: a sequence of UTF-16 code units.  [operator==]
    against a wide literal compares length and code units. *)
Definition wchar_t := N.
Definition wstring := list wchar_t.

(** The wide literal [L"..."] of an ASCII text. *)
Definition L (s : string) : wstring := map N_of_ascii (list_ascii_of_string s).

(** ** VtIoModes.hpp *)

(** Modelled from the spec: the enumeration of VtIoModes.hpp, which the
    source names as [VtIoMode::INVALID], [XTERM_256], [XTERM] and
    [WIN_TELNET] (spec section 3, DialectMode). *)
Inductive VtIoMode := INVALID | XTERM | XTERM_256 | WIN_TELNET.

#[global] Instance VtIoMode_eq_dec : EqDecision VtIoMode.
Proof. solve_decision. Defined.

(** Modelled from the spec: the four [*_STRING] constants of
    VtIoModes.hpp; spec section 6 gives the tokens, the empty one being
    the default. *)
Definition XTERM_STRING : wstring := L "xterm".
Definition XTERM_256_STRING : wstring := L "xterm-256color".
Definition WIN_TELNET_STRING : wstring := L "win-telnet".
Definition DEFAULT_STRING : wstring := L "".

(** ** VtIo::ParseIoMode *)

(** The out-parameter [ioMode] is the second component of the result:
    it is written first with INVALID and then, on a match, with the
    dialect. *)
Definition ParseIoMode (VtMode : wstring) : HRESULT * VtIoMode :=
  let ioMode := INVALID in
  if decide (VtMode = XTERM_256_STRING) then (S_OK, XTERM_256)
  else if decide (VtMode = XTERM_STRING) then (S_OK, XTERM)
  else if decide (VtMode = WIN_TELNET_STRING) then (S_OK, WIN_TELNET)
  else if decide (VtMode = DEFAULT_STRING) then (S_OK, XTERM_256)
  else (E_INVALIDARG, ioMode).

(** ** The collaborators: kernel, constructors, renderer *)

(** What the host's globals hold for this class: the console's colour
    table and the size [GetColorTableSize()] reports for it. *)
Record CONSOLE_INFORMATION := {
  GetColorTable : list COLORREF;
  GetColorTableSize : Z
}.

(** [wil::unique_hfile]: an owned file handle, INVALID_HANDLE_VALUE when
    it owns nothing (default constructed or moved from). *)
Definition unique_hfile := HANDLE.

(** The input decoder.  It owns the handle it was constructed from. *)
Record VtInputThread := {
  _hFile : unique_hfile;
  _started : bool
}.

(** The three encoders.  Each owns the output handle it was constructed
    from; the two 16-colour ones also keep the colour table and its size. *)
Inductive VtEngine :=
| Xterm256Engine (hPipe : unique_hfile)
| XtermEngine (hPipe : unique_hfile) (ColorTable : list COLORREF) (cColorTable : WORD)
| WinTelnetEngine (hPipe : unique_hfile) (ColorTable : list COLORREF) (cColorTable : WORD).

Definition engine_hFile (e : VtEngine) : unique_hfile :=
  match e with
  | Xterm256Engine h => h
  | XtermEngine h _ _ => h
  | WinTelnetEngine h _ _ => h
  end.

(** What the collaborators were asked to do, oldest first. *)
Inductive Event :=
| EvCreateFileW (lpFileName : wstring) (dwDesiredAccess : DWORD) (result : HANDLE)
| EvCloseHandle (h : HANDLE)
| EvNewVtInputThread (hPipe : HANDLE)
| EvNewEngine (mode : VtIoMode) (hPipe : HANDLE)
| EvAddRenderEngine (pEngine : option VtEngine)
| EvStart (hPipe : HANDLE).

Record World := {
  handles : gset HANDLE;              (* the handles the process has open *)
  last_error : DWORD;                 (* what GetLastError() returns *)
  rgpEngines : list (option VtEngine);(* engines registered with g->pRender *)
  log : list Event
}.

(** The answers of the collaborators during one call. *)
Record Oracle := {
  gci : CONSOLE_INFORMATION;
  (* CreateFileW(name, access, 0, nullptr, OPEN_EXISTING, ...):
     [None] when the open succeeds, else the last error it sets *)
  CreateFileW_error : wstring -> DWORD -> option DWORD;
  (* the exception make_unique<VtInputThread>(...) raises, if any *)
  VtInputThread_throws : option exception;
  (* the exception make_unique<...Engine>(...) raises, if any *)
  Engine_throws : option exception;
  (* the exception Renderer::AddRenderEngine raises, if any *)
  AddRenderEngine_throws : option exception
}.

Definition record (e : Event) (w : World) : World :=
  {| handles := handles w; last_error := last_error w;
     rgpEngines := rgpEngines w; log := log w ++ [e] |}.

(** The kernel hands out a handle that is not open at the moment, and
    never NULL or INVALID_HANDLE_VALUE. *)
Definition new_handle (w : World) : HANDLE :=
  fresh ({[INVALID_HANDLE_VALUE; NULL]} ∪ handles w).

Definition CreateFileW (env : Oracle) (lpFileName : wstring) (dwDesiredAccess : DWORD)
    (w : World) : HANDLE * World :=
  match CreateFileW_error env lpFileName dwDesiredAccess with
  | Some err =>
      (INVALID_HANDLE_VALUE,
       record (EvCreateFileW lpFileName dwDesiredAccess INVALID_HANDLE_VALUE)
         {| handles := handles w; last_error := err;
            rgpEngines := rgpEngines w; log := log w |})
  | None =>
      let h := new_handle w in
      (h,
       record (EvCreateFileW lpFileName dwDesiredAccess h)
         {| handles := {[h]} ∪ handles w; last_error := last_error w;
            rgpEngines := rgpEngines w; log := log w |})
  end.

Definition CloseHandle (h : HANDLE) (w : World) : World :=
  record (EvCloseHandle h)
    {| handles := handles w ∖ {[h]}; last_error := last_error w;
       rgpEngines := rgpEngines w; log := log w |}.

(** [~unique_hfile()]: closes the handle unless it owns none. *)
Definition unique_hfile_dtor (h : unique_hfile) (w : World) : World :=
  if decide (h = INVALID_HANDLE_VALUE) then w else CloseHandle h w.

(** [~VtInputThread()] and the engines' destructors release the handle
    the object owns; resetting an empty [unique_ptr] does nothing. *)
Definition VtInputThread_dtor (p : option VtInputThread) (w : World) : World :=
  match p with
  | Some t => unique_hfile_dtor (_hFile t) w
  | None => w
  end.

Definition VtEngine_dtor (p : option VtEngine) (w : World) : World :=
  match p with
  | Some e => unique_hfile_dtor (engine_hFile e) w
  | None => w
  end.

(** [std::make_unique<VtInputThread>(std::move(hPipe))].  When the
    constructor throws, the handle it was given is released while the
    exception unwinds.  (Were the allocation to throw instead, the
    local would keep the handle and release it on leaving the function,
    after the output handle: the same handles are closed, in the other
    order.) *)
Definition make_VtInputThread (env : Oracle) (hPipe : unique_hfile) (w : World)
    : (VtInputThread + exception) * World :=
  let w := record (EvNewVtInputThread hPipe) w in
  match VtInputThread_throws env with
  | Some e => (inr e, unique_hfile_dtor hPipe w)
  | None => (inl {| _hFile := hPipe; _started := false |}, w)
  end.

(** [std::make_unique<E>(std::move(hPipe), ...)], [built] being the
    engine the constructor yields when it does not throw. *)
Definition make_Engine (env : Oracle) (mode : VtIoMode) (built : VtEngine) (w : World)
    : (VtEngine + exception) * World :=
  let w := record (EvNewEngine mode (engine_hFile built)) w in
  match Engine_throws env with
  | Some e => (inr e, unique_hfile_dtor (engine_hFile built) w)
  | None => (inl built, w)
  end.

(** [Renderer::AddRenderEngine(pEngine)]: appends the pointer to the
    renderer's engines, or throws. *)
Definition AddRenderEngine (env : Oracle) (pEngine : option VtEngine) (w : World)
    : option exception * World :=
  let w := record (EvAddRenderEngine pEngine) w in
  match AddRenderEngine_throws env with
  | Some e => (Some e, w)
  | None =>
      (None,
       {| handles := handles w; last_error := last_error w;
          rgpEngines := rgpEngines w ++ [pEngine]; log := log w |})
  end.

(** [VtInputThread::Start()]: the decoder's thread begins to run. *)
Definition Start (t : VtInputThread) (w : World) : VtInputThread * World :=
  ({| _hFile := _hFile t; _started := true |}, record (EvStart (_hFile t)) w).

(** ** The class *)

Record VtIo := {
  _usingVt : bool;
  _IoMode : VtIoMode;
  _pVtInputThread : option VtInputThread;   (* std::unique_ptr, None = empty *)
  _pVtRenderEngine : option VtEngine        (* std::unique_ptr, None = empty *)
}.

Definition set_IoMode (m : VtIoMode) (this : VtIo) : VtIo :=
  {| _usingVt := _usingVt this; _IoMode := m;
     _pVtInputThread := _pVtInputThread this;
     _pVtRenderEngine := _pVtRenderEngine this |}.

Definition set_pVtInputThread (p : option VtInputThread) (this : VtIo) : VtIo :=
  {| _usingVt := _usingVt this; _IoMode := _IoMode this;
     _pVtInputThread := p;
     _pVtRenderEngine := _pVtRenderEngine this |}.

Definition set_pVtRenderEngine (p : option VtEngine) (this : VtIo) : VtIo :=
  {| _usingVt := _usingVt this; _IoMode := _IoMode this;
     _pVtInputThread := _pVtInputThread this;
     _pVtRenderEngine := p |}.

Definition set_usingVt (b : bool) (this : VtIo) : VtIo :=
  {| _usingVt := b; _IoMode := _IoMode this;
     _pVtInputThread := _pVtInputThread this;
     _pVtRenderEngine := _pVtRenderEngine this |}.

(** [VtIo::VtIo()] initialises [_usingVt] only: the two [unique_ptr]s
    start empty and [_IoMode] holds whatever [indeterminate] was there. *)
Definition VtIo_ctor (indeterminate : VtIoMode) : VtIo :=
  {| _usingVt := false; _IoMode := indeterminate;
     _pVtInputThread := None; _pVtRenderEngine := None |}.

(** ** VtIo::Initialize *)

(** The [return] statements of [Initialize], with the value each returns. *)
Inductive ReturnSite :=
| RetParseIoMode (hr : HRESULT)   (* RETURN_IF_FAILED(ParseIoMode(...)) *)
| RetInputOpen (hr : HRESULT)     (* RETURN_LAST_ERROR_IF, input pipe *)
| RetOutputOpen (hr : HRESULT)    (* RETURN_LAST_ERROR_IF, output pipe *)
| RetDefault                      (* default: return E_FAIL *)
| RetCaught (hr : HRESULT)        (* CATCH_RETURN() *)
| RetOk.                          (* return S_OK *)

Definition returned (r : ReturnSite) : HRESULT :=
  match r with
  | RetParseIoMode hr | RetInputOpen hr | RetOutputOpen hr | RetCaught hr => hr
  | RetDefault => E_FAIL
  | RetOk => S_OK
  end.

(** [unique_hfile::reset(h)]: releases what is owned, then owns [h]. *)
Definition unique_hfile_reset (cur h : unique_hfile) (w : World) : unique_hfile * World :=
  (h, unique_hfile_dtor cur w).

(** Leaving the function body destroys the two locals in reverse order
    of declaration: [_hOutputFile], then [_hInputFile]. *)
Definition leave (_hInputFile _hOutputFile : unique_hfile) (w : World) : World :=
  unique_hfile_dtor _hInputFile (unique_hfile_dtor _hOutputFile w).

(** A local [unique_hfile] after [std::move]. *)
Definition moved_from : unique_hfile := INVALID_HANDLE_VALUE.

(** One case of the switch followed by the tail of the function:
    [_pVtRenderEngine = std::make_unique<E>(...); break;] and then
    [_usingVt = true; return S_OK;], or the catch clause. *)
Definition construct_engine (env : Oracle) (built : VtEngine) (this : VtIo) (w : World)
    : ReturnSite * VtIo * World :=
  match make_Engine env (_IoMode this) built w with
  | (inr e, w) => (RetCaught (exn_hr e), this, leave moved_from moved_from w)
  | (inl engine, w) =>
      let w := VtEngine_dtor (_pVtRenderEngine this) w in
      let this := set_pVtRenderEngine (Some engine) this in
      let this := set_usingVt true this in
      (RetOk, this, leave moved_from moved_from w)
  end.

Definition Initialize_at (env : Oracle) (InPipeName OutPipeName VtMode : wstring)
    (this : VtIo) (w : World) : ReturnSite * VtIo * World :=
  let gci := gci env in
  let '(hr, ioMode) := ParseIoMode VtMode in
  let this := set_IoMode ioMode this in
  if FAILED hr then (RetParseIoMode hr, this, w) else
  let _hInputFile : unique_hfile := INVALID_HANDLE_VALUE in
  let _hOutputFile : unique_hfile := INVALID_HANDLE_VALUE in
  let '(h, w) := CreateFileW env InPipeName GENERIC_READ w in
  let '(_hInputFile, w) := unique_hfile_reset _hInputFile h w in
  if decide (_hInputFile = INVALID_HANDLE_VALUE)
  then (RetInputOpen (GetLastErrorFailHr (last_error w)), this,
        leave _hInputFile _hOutputFile w) else
  let '(h, w) := CreateFileW env OutPipeName GENERIC_WRITE w in
  let '(_hOutputFile, w) := unique_hfile_reset _hOutputFile h w in
  if decide (_hOutputFile = INVALID_HANDLE_VALUE)
  then (RetOutputOpen (GetLastErrorFailHr (last_error w)), this,
        leave _hInputFile _hOutputFile w) else
  match make_VtInputThread env _hInputFile w with
  | (inr e, w) => (RetCaught (exn_hr e), this, leave moved_from _hOutputFile w)
  | (inl thread, w) =>
      let w := VtInputThread_dtor (_pVtInputThread this) w in
      let this := set_pVtInputThread (Some thread) this in
      match _IoMode this with
      | XTERM_256 =>
          construct_engine env (Xterm256Engine _hOutputFile) this w
      | XTERM =>
          construct_engine env
            (XtermEngine _hOutputFile (GetColorTable gci)
               (to_WORD (GetColorTableSize gci))) this w
      | WIN_TELNET =>
          construct_engine env
            (WinTelnetEngine _hOutputFile (GetColorTable gci)
               (to_WORD (GetColorTableSize gci))) this w
      | _ => (RetDefault, this, leave moved_from _hOutputFile w)
      end
  end.

Definition Initialize (env : Oracle) (InPipeName OutPipeName VtMode : wstring)
    (this : VtIo) (w : World) : HRESULT * VtIo * World :=
  let '(r, this, w) := Initialize_at env InPipeName OutPipeName VtMode this w in
  (returned r, this, w).

(** ** VtIo::IsUsingVt *)

Definition IsUsingVt (this : VtIo) : bool := _usingVt this.

(** ** VtIo::StartIfNeeded *)

(** [None] stands for the undefined behaviour of [_pVtInputThread->Start()]
    on an empty pointer. *)
Definition StartIfNeeded (env : Oracle) (this : VtIo) (w : World)
    : option (HRESULT * VtIo * World) :=
  if negb (IsUsingVt this) then Some (S_FALSE, this, w) else
  match AddRenderEngine env (_pVtRenderEngine this) w with
  | (Some e, w) => Some (exn_hr e, this, w)
  | (None, w) =>
      match _pVtInputThread this with
      | None => None
      | Some t =>
          let '(t, w) := Start t w in
          Some (S_OK, set_pVtInputThread (Some t) this, w)
      end
  end.

(** ** Sequences of calls on one instance *)

Inductive Call :=
| CallInitialize (env : Oracle) (InPipeName OutPipeName VtMode : wstring)
| CallStartIfNeeded (env : Oracle).

(** Runs the calls in order and collects what each returned. *)
Fixpoint run (calls : list Call) (this : VtIo) (w : World)
    : option (list HRESULT * VtIo * World) :=
  match calls with
  | [] => Some ([], this, w)
  | CallInitialize env i o m :: calls =>
      let '(hr, this, w) := Initialize env i o m this w in
      '(hrs, this, w) ← run calls this w;
      Some (hr :: hrs, this, w)
  | CallStartIfNeeded env :: calls =>
      '(hr, this, w) ← StartIfNeeded env this w;
      '(hrs, this, w) ← run calls this w;
      Some (hr :: hrs, this, w)
  end.

(** Whether some [Initialize] among the calls returned success. *)
Fixpoint some_Initialize_succeeded (calls : list Call) (hrs : list HRESULT) : bool :=
  match calls, hrs with
  | CallInitialize _ _ _ _ :: calls, hr :: hrs =>
      SUCCEEDED hr || some_Initialize_succeeded calls hrs
  | CallStartIfNeeded _ :: calls, _ :: hrs => some_Initialize_succeeded calls hrs
  | _, _ => false
  end.

(** Handles that [this] owns through its decoder and its engine. *)
Definition owned (this : VtIo) : gset HANDLE :=
  match _pVtInputThread this with Some t => {[_hFile t]} | None => ∅ end ∪
  match _pVtRenderEngine this with Some e => {[engine_hFile e]} | None => ∅ end.

(** The calls of a log other than CloseHandle: the steps taken. *)
Definition is_step (e : Event) : bool :=
  match e with EvCloseHandle _ => false | _ => true end.

Definition steps (l : list Event) : list Event := List.filter is_step l.

(** The return statement the spec's sequencing predicts: mode
    resolution, then the input open, then the output open, then the
    decoder and the engine, stopping at the first step that fails. *)
Definition first_failure (env : Oracle) (InPipeName OutPipeName VtMode : wstring)
    : ReturnSite :=
  if FAILED ((ParseIoMode VtMode).1) then RetParseIoMode E_INVALIDARG else
  match CreateFileW_error env InPipeName GENERIC_READ with
  | Some err => RetInputOpen (GetLastErrorFailHr err)
  | None =>
  match CreateFileW_error env OutPipeName GENERIC_WRITE with
  | Some err => RetOutputOpen (GetLastErrorFailHr err)
  | None =>
  match VtInputThread_throws env with
  | Some e => RetCaught (exn_hr e)
  | None =>
  match Engine_throws env with
  | Some e => RetCaught (exn_hr e)
  | None => RetOk
  end end end end.

(** A configured instance holds a decoder. *)
Definition has_decoder_when_configured (this : VtIo) : Prop :=
  _usingVt this = true → is_Some (_pVtInputThread this).

(** The instance and the process agree: INVALID_HANDLE_VALUE is not an
    open handle, the handles the decoder and the engine hold are open
    and differ, and a configured instance holds both objects. *)
Definition consistent (this : VtIo) (w : World) : Prop :=
  (INVALID_HANDLE_VALUE ∉ handles w) ∧
  (owned this ⊆ handles w) ∧
  (∀ t e, _pVtInputThread this = Some t → _pVtRenderEngine this = Some e →
          _hFile t ≠ engine_hFile e) ∧
  (_usingVt this = true →
     is_Some (_pVtInputThread this) ∧ is_Some (_pVtRenderEngine this)).

(** The engine the switch of [Initialize] constructs for a mode; the
    [default:] case constructs none. *)
Definition engine_of (mode : VtIoMode) (hPipe : unique_hfile) (gci : CONSOLE_INFORMATION)
    : option VtEngine :=
  match mode with
  | XTERM_256 => Some (Xterm256Engine hPipe)
  | XTERM =>
      Some (XtermEngine hPipe (GetColorTable gci) (to_WORD (GetColorTableSize gci)))
  | WIN_TELNET =>
      Some (WinTelnetEngine hPipe (GetColorTable gci) (to_WORD (GetColorTableSize gci)))
  | INVALID => None
  end.

(** The handle the decoder holds, as a set. *)
Definition decoder_handle (p : option VtInputThread) : gset HANDLE :=
  match p with Some t => {[_hFile t]} | None => ∅ end.

(** [quiet w w']: from [w] to [w'] the renderer's engines did not
    change and neither AddRenderEngine nor Start was called. *)
Definition quiet (w w' : World) : Prop :=
  rgpEngines w' = rgpEngines w ∧
  ∃ new, log w' = log w ++ new ∧
         ∀ ev, ev ∈ new → ∀ p h, ev ≠ EvAddRenderEngine p ∧ ev ≠ EvStart h.

(** ** Concrete collaborators, to run the model on *)

(* 0x8007000E read as a signed 32-bit value *)
Definition E_OUTOFMEMORY : HRESULT := 2147942414 - 2 ^ 32.

Definition bad_alloc : exception :=
  {| exn_hr := E_OUTOFMEMORY; exn_failed := eq_refl |}.

Definition ERROR_FILE_NOT_FOUND : DWORD := 2.

(** A console with the sixteen colours of the default table. *)
Definition console : CONSOLE_INFORMATION :=
  {| GetColorTable :=
       [0; 8388608; 32768; 8421376; 128; 8388736; 32896; 12632256;
        8421504; 16711680; 65280; 16776960; 255; 16711935; 65535; 16777215];
     GetColorTableSize := 16 |}.

Definition conin : wstring := L "conin".
Definition conout : wstring := L "conout".

(** Both pipes exist and nothing throws. *)
Definition all_succeed : Oracle :=
  {| gci := console;
     CreateFileW_error := λ _ _, None;
     VtInputThread_throws := None;
     Engine_throws := None;
     AddRenderEngine_throws := None |}.

(** Only the pipe named [name] is missing. *)
Definition missing_pipe (name : wstring) : Oracle :=
  {| gci := console;
     CreateFileW_error := λ n _, if decide (n = name) then Some ERROR_FILE_NOT_FOUND else None;
     VtInputThread_throws := None;
     Engine_throws := None;
     AddRenderEngine_throws := None |}.

(** The engine's constructor runs out of memory. *)
Definition engine_out_of_memory : Oracle :=
  {| gci := console;
     CreateFileW_error := λ _ _, None;
     VtInputThread_throws := None;
     Engine_throws := Some bad_alloc;
     AddRenderEngine_throws := None |}.

(** The renderer cannot take one more engine. *)
Definition renderer_out_of_memory : Oracle :=
  {| gci := console;
     CreateFileW_error := λ _ _, None;
     VtInputThread_throws := None;
     Engine_throws := None;
     AddRenderEngine_throws := Some bad_alloc |}.

(** A process with no handle open and no engine registered. *)
Definition empty_world : World :=
  {| handles := ∅; last_error := 0; rgpEngines := []; log := [] |}.

(** * Properties *)

(** ** Failure codes *)

Section HresultFacts.

Lemma to_HRESULT_high (v : Z) : 2 ^ 31 <= v < 2 ^ 32 -> to_HRESULT v = v - 2 ^ 32.
Proof.
  intros Hv. unfold to_HRESULT.
  replace (v + 2 ^ 31) with ((v - 2 ^ 31) + 1 * 2 ^ 32) by lia.
  rewrite Z.mod_add by lia. rewrite Z.mod_small; lia.
Qed.

Lemma to_HRESULT_low (v : Z) : 0 <= v < 2 ^ 31 -> to_HRESULT v = v.
Proof. intros Hv. unfold to_HRESULT. rewrite Z.mod_small; lia. Qed.

Lemma win32_bits_range (x : Z) :
  2 ^ 31 <= Z.lor (Z.lor (Z.land x 65535) (Z.shiftl FACILITY_WIN32 16)) (2 ^ 31) < 2 ^ 32.
Proof.
  set (a := Z.land x 65535).
  assert (Ha : 0 <= a < 2 ^ 16).
  { subst a. change 65535 with (Z.ones 16). rewrite Z.land_ones by lia.
    apply Z.mod_pos_bound. lia. }
  set (v := Z.lor (Z.lor a (Z.shiftl FACILITY_WIN32 16)) (2 ^ 31)).
  assert (Hc : 0 <= Z.shiftl FACILITY_WIN32 16) by (vm_compute; discriminate).
  assert (Hac : 0 <= Z.lor a (Z.shiftl FACILITY_WIN32 16)) by (apply Z.lor_nonneg; lia).
  assert (Hlog : Z.log2 v = 31).
  { subst v. rewrite Z.log2_lor by lia. rewrite Z.log2_lor by lia.
    assert (Z.log2 a <= 15).
    { change 15 with (Z.log2 65535). apply Z.log2_le_mono. lia. }
    change (Z.log2 (Z.shiftl FACILITY_WIN32 16)) with 18.
    change (Z.log2 (2 ^ 31)) with 31. lia. }
  assert (Hpos : 0 < v).
  { destruct (Z.lt_ge_cases 0 v) as [|Hle]; [done|].
    rewrite Z.log2_nonpos in Hlog by lia. discriminate. }
  split.
  - apply Z.log2_le_pow2; lia.
  - apply Z.log2_lt_pow2; lia.
Qed.

Lemma FAILED_HRESULT_FROM_WIN32 (x : DWORD) :
  0 < x < 2 ^ 32 -> FAILED (HRESULT_FROM_WIN32 x) = true.
Proof.
  intros Hx. unfold HRESULT_FROM_WIN32, FAILED.
  destruct (Z.leb_spec (to_HRESULT x) 0) as [Hle|Hgt].
  - apply Z.ltb_lt.
    destruct (Z.lt_ge_cases x (2 ^ 31)).
    + rewrite to_HRESULT_low in Hle by lia. lia.
    + rewrite to_HRESULT_high by lia. lia.
  - apply Z.ltb_lt. rewrite to_HRESULT_high by apply win32_bits_range.
    pose proof (win32_bits_range x). lia.
Qed.

Lemma FAILED_GetLastErrorFailHr (err : DWORD) : FAILED (GetLastErrorFailHr err) = true.
Proof.
  unfold GetLastErrorFailHr. apply FAILED_HRESULT_FROM_WIN32.
  pose proof (Z.mod_pos_bound err (2 ^ 32) ltac:(lia)).
  destruct (Z.eqb_spec (err mod 2 ^ 32) 0); [vm_compute; split; reflexivity | lia].
Qed.

End HresultFacts.

(** ** ParseIoMode *)

(** C1: [ParseIoMode] is a function of the token alone; it answers S_OK
    with XTERM_256 for the empty token and for "xterm-256color", XTERM for
    "xterm", WIN_TELNET for "win-telnet", and E_INVALIDARG (with the mode
    left INVALID) for every other string; the comparison is exact, so a
    token in another case, with a blank or cut short is rejected. *)
Theorem ParseIoMode_exact_tokens :
  ParseIoMode (L "") = (S_OK, XTERM_256) ∧
  ParseIoMode (L "xterm-256color") = (S_OK, XTERM_256) ∧
  ParseIoMode (L "xterm") = (S_OK, XTERM) ∧
  ParseIoMode (L "win-telnet") = (S_OK, WIN_TELNET) ∧
  (∀ VtMode : wstring,
      VtMode ∈ [L ""; L "xterm-256color"; L "xterm"; L "win-telnet"] ∨
      ParseIoMode VtMode = (E_INVALIDARG, INVALID)) ∧
  SUCCEEDED S_OK = true ∧ FAILED E_INVALIDARG = true ∧
  ParseIoMode (L "XTERM") = (E_INVALIDARG, INVALID) ∧
  ParseIoMode (L "Xterm-256Color") = (E_INVALIDARG, INVALID) ∧
  ParseIoMode (L " xterm") = (E_INVALIDARG, INVALID) ∧
  ParseIoMode (L "xterm-256") = (E_INVALIDARG, INVALID) ∧
  ParseIoMode (L "win_telnet") = (E_INVALIDARG, INVALID).
Proof.
  repeat split; try reflexivity.
  intros VtMode. unfold ParseIoMode.
  destruct (decide (VtMode = XTERM_256_STRING)) as [->|];
    [left; set_solver|].
  destruct (decide (VtMode = XTERM_STRING)) as [->|];
    [left; set_solver|].
  destruct (decide (VtMode = WIN_TELNET_STRING)) as [->|];
    [left; set_solver|].
  destruct (decide (VtMode = DEFAULT_STRING)) as [->|];
    [left; set_solver|].
  by right.
Qed.

(** ** The kernel's handle table *)

Lemma new_handle_fresh (w : World) : new_handle w ∉ handles w.
Proof.
  unfold new_handle. intros Hin.
  apply (is_fresh ({[INVALID_HANDLE_VALUE; NULL]} ∪ handles w)). set_solver.
Qed.

Lemma new_handle_valid (w : World) : new_handle w ≠ INVALID_HANDLE_VALUE.
Proof.
  unfold new_handle. intros Heq.
  apply (is_fresh ({[INVALID_HANDLE_VALUE; NULL]} ∪ handles w)).
  rewrite Heq. set_solver.
Qed.

Lemma open_close_restores (h : HANDLE) (X : gset HANDLE) :
  h ∉ X → ({[h]} ∪ X) ∖ {[h]} = X.
Proof.
  intros Hh. apply set_eq. intros x.
  rewrite elem_of_difference, elem_of_union, elem_of_singleton.
  split; [intros [[->|Hx] Hne]; done | intros Hx; split; [by right | by intros ->]].
Qed.

Lemma open_two_close_two (h h1 : HANDLE) (X : gset HANDLE) :
  h ∉ X → h1 ∉ {[h]} ∪ X → (({[h1]} ∪ ({[h]} ∪ X)) ∖ {[h]}) ∖ {[h1]} = X.
Proof.
  intros Hh Hh1. apply set_eq. intros x.
  rewrite !elem_of_difference, !elem_of_union, !elem_of_singleton.
  split.
  - intros [[[?|[?|?]] ?] ?]; done.
  - intros Hx. repeat split; auto; intros ->; [done|].
    apply Hh1. apply elem_of_union. by right.
Qed.

(** What [ParseIoMode] can answer: the error with INVALID, or success
    with one of the three dialects. *)
Lemma ParseIoMode_cases (VtMode : wstring) :
  ParseIoMode VtMode = (E_INVALIDARG, INVALID) ∨
  ∃ m, ParseIoMode VtMode = (S_OK, m) ∧ (m = XTERM_256 ∨ m = XTERM ∨ m = WIN_TELNET).
Proof.
  unfold ParseIoMode.
  destruct (decide (VtMode = XTERM_256_STRING)); [right; exists XTERM_256; auto |].
  destruct (decide (VtMode = XTERM_STRING)); [right; exists XTERM; auto |].
  destruct (decide (VtMode = WIN_TELNET_STRING)); [right; exists WIN_TELNET; auto |].
  destruct (decide (VtMode = DEFAULT_STRING)); [right; exists XTERM_256; auto |].
  by left.
Qed.

Ltac parse_cases VtMode m Hparse Hm :=
  destruct (ParseIoMode_cases VtMode) as [Hparse | (m & Hparse & Hm)].

(** Unfolds one call of [Initialize] down to the collaborators. *)
Ltac step_Initialize :=
  unfold Initialize, Initialize_at, construct_engine, make_VtInputThread,
    make_Engine, CreateFileW, unique_hfile_reset, leave, moved_from.

(** ** Initialize: partial failure of the transport *)

(** C3: when the input pipe opens and the output pipe does not,
    [Initialize] returns a failure code after closing the input handle
    it had opened, so the process has the handles open it had before;
    when the input pipe does not open, CreateFileW is never called for
    the output pipe. *)
Theorem Initialize_partial_open_releases_input
    (env : Oracle) (InPipeName OutPipeName VtMode : wstring) (this : VtIo) (w : World)
    (Hparse : SUCCEEDED ((ParseIoMode VtMode).1) = true) :
  (∀ err,
      CreateFileW_error env InPipeName GENERIC_READ = None →
      CreateFileW_error env OutPipeName GENERIC_WRITE = Some err →
      let r := Initialize env InPipeName OutPipeName VtMode this w in
      r.1.1 = GetLastErrorFailHr err ∧ FAILED (r.1.1) = true ∧
      handles (r.2) = handles w ∧ (new_handle w ∉ handles (r.2)) ∧
      log (r.2) = log w ++
        [EvCreateFileW InPipeName GENERIC_READ (new_handle w);
         EvCreateFileW OutPipeName GENERIC_WRITE INVALID_HANDLE_VALUE;
         EvCloseHandle (new_handle w)]) ∧
  (∀ err,
      CreateFileW_error env InPipeName GENERIC_READ = Some err →
      let r := Initialize env InPipeName OutPipeName VtMode this w in
      r.1.1 = GetLastErrorFailHr err ∧ FAILED (r.1.1) = true ∧
      handles (r.2) = handles w ∧
      log (r.2) = log w ++
        [EvCreateFileW InPipeName GENERIC_READ INVALID_HANDLE_VALUE]).
Proof.
  parse_cases VtMode m Hp Hm; rewrite Hp in Hparse; [discriminate|].
  pose proof (new_handle_valid w) as Hv.
  pose proof (new_handle_fresh w) as Hf.
  split; intros err.
  - intros Hin Hout. step_Initialize. rewrite Hp. simpl. rewrite Hin. simpl.
    rewrite decide_False by done. rewrite Hout. simpl.
    unfold unique_hfile_dtor. simpl. rewrite decide_False by done. simpl.
    rewrite open_close_restores by done.
    repeat split; auto using FAILED_GetLastErrorFailHr.
    by rewrite <- !app_assoc.
  - intros Hin. step_Initialize. rewrite Hp. simpl. rewrite Hin. simpl.
    repeat split; auto using FAILED_GetLastErrorFailHr.
Qed.

(** ** Initialize: the order of the steps *)

Lemma unique_hfile_dtor_invalid (w : World) :
  unique_hfile_dtor INVALID_HANDLE_VALUE w = w.
Proof. reflexivity. Qed.

Lemma unique_hfile_dtor_valid (h : unique_hfile) (w : World) :
  h ≠ INVALID_HANDLE_VALUE → unique_hfile_dtor h w = CloseHandle h w.
Proof. intros Hh. unfold unique_hfile_dtor. by rewrite decide_False. Qed.

Lemma log_unique_hfile_dtor (h : unique_hfile) (w : World) :
  ∃ cl, log (unique_hfile_dtor h w) = log w ++ cl ∧ steps cl = [].
Proof.
  unfold unique_hfile_dtor. destruct (decide (h = INVALID_HANDLE_VALUE)).
  - exists []. by rewrite app_nil_r.
  - by exists [EvCloseHandle h].
Qed.

Lemma log_VtInputThread_dtor (p : option VtInputThread) (w : World) :
  ∃ cl, log (VtInputThread_dtor p w) = log w ++ cl ∧ steps cl = [].
Proof.
  destruct p; simpl; [apply log_unique_hfile_dtor|].
  exists []. by rewrite app_nil_r.
Qed.

Lemma log_VtEngine_dtor (p : option VtEngine) (w : World) :
  ∃ cl, log (VtEngine_dtor p w) = log w ++ cl ∧ steps cl = [].
Proof.
  destruct p; simpl; [apply log_unique_hfile_dtor|].
  exists []. by rewrite app_nil_r.
Qed.

Lemma steps_app (l1 l2 : list Event) : steps (l1 ++ l2) = steps l1 ++ steps l2.
Proof. apply List.filter_app. Qed.

Lemma construct_engine_spec (env : Oracle) (built : VtEngine) (this : VtIo) (w : World) :
  let r := construct_engine env built this w in
  r.1.1 = match Engine_throws env with
          | Some e => RetCaught (exn_hr e)
          | None => RetOk
          end ∧
  ∃ cl, log (r.2) = log w ++ EvNewEngine (_IoMode this) (engine_hFile built) :: cl ∧
        steps cl = [].
Proof.
  unfold construct_engine, make_Engine, leave, moved_from.
  destruct (Engine_throws env) as [e|]; simpl.
  - split; [done|].
    destruct (log_unique_hfile_dtor (engine_hFile built)
                (record (EvNewEngine (_IoMode this) (engine_hFile built)) w))
      as (cl & Hcl & Hs).
    exists cl. unfold unique_hfile_dtor at 1 2. simpl. rewrite Hcl. simpl.
    by rewrite <- app_assoc.
  - split; [done|].
    destruct (log_VtEngine_dtor (_pVtRenderEngine this)
                (record (EvNewEngine (_IoMode this) (engine_hFile built)) w))
      as (cl & Hcl & Hs).
    exists cl. unfold unique_hfile_dtor at 1 2. simpl. rewrite Hcl. simpl.
    by rewrite <- app_assoc.
Qed.

(** C7: [Initialize] resolves the token, opens the input pipe, opens
    the output pipe and constructs the decoder and then the engine, in
    this order, and returns at the first step that fails.  With an
    unknown token it returns E_INVALIDARG and the world is untouched (no
    pipe is opened); when the input open fails, that open is the only
    call made. *)
Theorem Initialize_steps_in_order
    (env : Oracle) (InPipeName OutPipeName VtMode : wstring) (this : VtIo) (w : World) :
  let r := Initialize_at env InPipeName OutPipeName VtMode this w in
  ∃ (new : list Event) (hIn hOut : HANDLE),
    r.1.1 = first_failure env InPipeName OutPipeName VtMode ∧
    log (r.2) = log w ++ new ∧
    (FAILED ((ParseIoMode VtMode).1) = true →
       returned (r.1.1) = E_INVALIDARG ∧ r.2 = w ∧ new = []) ∧
    (FAILED ((ParseIoMode VtMode).1) = false →
       (∀ err, CreateFileW_error env InPipeName GENERIC_READ = Some err →
          new = [EvCreateFileW InPipeName GENERIC_READ INVALID_HANDLE_VALUE]) ∧
       (CreateFileW_error env InPipeName GENERIC_READ = None →
          (∀ err, CreateFileW_error env OutPipeName GENERIC_WRITE = Some err →
             steps new =
               [EvCreateFileW InPipeName GENERIC_READ hIn;
                EvCreateFileW OutPipeName GENERIC_WRITE INVALID_HANDLE_VALUE]) ∧
          (CreateFileW_error env OutPipeName GENERIC_WRITE = None →
             (∀ e, VtInputThread_throws env = Some e →
                steps new =
                  [EvCreateFileW InPipeName GENERIC_READ hIn;
                   EvCreateFileW OutPipeName GENERIC_WRITE hOut;
                   EvNewVtInputThread hIn]) ∧
             (VtInputThread_throws env = None →
                steps new =
                  [EvCreateFileW InPipeName GENERIC_READ hIn;
                   EvCreateFileW OutPipeName GENERIC_WRITE hOut;
                   EvNewVtInputThread hIn;
                   EvNewEngine ((ParseIoMode VtMode).2) hOut])))).
Proof.
  intros r. subst r.
  parse_cases VtMode m Hp Hm.
  { exists [], NULL, NULL. unfold first_failure, Initialize_at. rewrite Hp. simpl.
    rewrite app_nil_r. repeat split; done. }
  unfold first_failure, Initialize_at, make_VtInputThread, CreateFileW,
    unique_hfile_reset, leave, moved_from.
  rewrite Hp. simpl. rewrite ?unique_hfile_dtor_invalid.
  destruct (CreateFileW_error env InPipeName GENERIC_READ) as [e1|] eqn:Hin; simpl.
  { rewrite ?unique_hfile_dtor_invalid. eexists _, NULL, NULL. repeat split; done. }
  pose proof (new_handle_valid w) as Hv.
  rewrite decide_False by done.
  set (w1 := record _ _).
  destruct (CreateFileW_error env OutPipeName GENERIC_WRITE) as [e2|] eqn:Hout; simpl.
  { rewrite ?unique_hfile_dtor_invalid, ?unique_hfile_dtor_valid by done. simpl.
    eexists _, (new_handle w), NULL. split; [done|]. split.
    { rewrite <- !app_assoc. simpl. reflexivity. }
    repeat split; done. }
  pose proof (new_handle_valid w1) as Hv1.
  rewrite ?unique_hfile_dtor_invalid; rewrite decide_False by done.
  destruct (VtInputThread_throws env) as [e3|] eqn:Hthr; simpl.
  { rewrite ?unique_hfile_dtor_invalid, ?unique_hfile_dtor_valid by done. simpl.
    eexists _, (new_handle w), (new_handle w1). split; [done|]. split.
    { rewrite <- !app_assoc. simpl. reflexivity. }
    repeat split; done. }
  match goal with
  | |- context [VtInputThread_dtor ?p ?w0] =>
      destruct (log_VtInputThread_dtor p w0) as (cl1 & Hcl1 & Hs1);
      set (w2 := VtInputThread_dtor p w0) in *
  end.
  simpl in Hcl1. rewrite <- !app_assoc in Hcl1. simpl in Hcl1.
  destruct Hm as [-> | [-> | ->]].
  all: match goal with
       | |- context [construct_engine ?e ?b ?t ?w0] =>
           destruct (construct_engine_spec e b t w0) as (Hsite & cl2 & Hlog & Hs2);
           simpl in Hsite, Hlog; rewrite Hcl1, <- !app_assoc in Hlog; simpl in Hlog
       end.
  all: eexists _, (new_handle w), (new_handle w1).
  all: split; [rewrite Hsite; by destruct (Engine_throws env) |].
  all: split; [exact Hlog |].
  all: repeat split; try done.
  all: intros _;
    match goal with
    | |- steps (?a :: ?b :: ?c :: ?l1 ++ ?d :: ?l2) = _ =>
        change (steps ([a; b; c] ++ l1 ++ [d] ++ l2) = [a; b; c; d])
    end;
    rewrite !steps_app, Hs1, Hs2; reflexivity.
Qed.

(** ** Initialize: where it returns and what it leaves in the members *)

(** Splits a goal about [Initialize_at] into the cases of the oracle. *)
Ltac Initialize_cases env InPipeName OutPipeName VtMode w :=
  let m := fresh "m" in
  let Hp := fresh "Hp" in
  let Hm := fresh "Hm" in
  parse_cases VtMode m Hp Hm;
  unfold Initialize_at, first_failure, make_VtInputThread, CreateFileW,
    unique_hfile_reset, leave, moved_from;
  rewrite Hp; simpl;
  [ | destruct (CreateFileW_error env InPipeName GENERIC_READ) eqn:?; simpl;
      [ | rewrite (decide_False (P := new_handle w = INVALID_HANDLE_VALUE))
            by apply new_handle_valid;
          destruct (CreateFileW_error env OutPipeName GENERIC_WRITE) eqn:?; simpl;
          [ | rewrite (decide_False (P := new_handle _ = INVALID_HANDLE_VALUE))
                by apply new_handle_valid;
              destruct (VtInputThread_throws env) eqn:?; simpl;
              [ | destruct Hm as [-> | [-> | ->]];
                  unfold construct_engine, make_Engine, leave, moved_from;
                  destruct (Engine_throws env) eqn:?; simpl ] ] ] ].

Lemma Initialize_at_first_failure
    (env : Oracle) (InPipeName OutPipeName VtMode : wstring) (this : VtIo) (w : World) :
  (Initialize_at env InPipeName OutPipeName VtMode this w).1.1
  = first_failure env InPipeName OutPipeName VtMode.
Proof. Initialize_cases env InPipeName OutPipeName VtMode w; reflexivity. Qed.

Lemma first_failure_failed (env : Oracle) (InPipeName OutPipeName VtMode : wstring) :
  first_failure env InPipeName OutPipeName VtMode = RetOk ∨
  FAILED (returned (first_failure env InPipeName OutPipeName VtMode)) = true.
Proof.
  unfold first_failure.
  destruct (FAILED ((ParseIoMode VtMode).1)); [by right|].
  destruct (CreateFileW_error env InPipeName GENERIC_READ);
    [right; apply FAILED_GetLastErrorFailHr|].
  destruct (CreateFileW_error env OutPipeName GENERIC_WRITE);
    [right; apply FAILED_GetLastErrorFailHr|].
  destruct (VtInputThread_throws env) as [e|]; [right; apply (exn_failed e)|].
  destruct (Engine_throws env) as [e|]; [right; apply (exn_failed e)|].
  by left.
Qed.

Lemma first_failure_not_default (env : Oracle) (InPipeName OutPipeName VtMode : wstring) :
  first_failure env InPipeName OutPipeName VtMode ≠ RetDefault.
Proof.
  unfold first_failure.
  destruct (FAILED ((ParseIoMode VtMode).1)); [done|].
  destruct (CreateFileW_error env InPipeName GENERIC_READ); [done|].
  destruct (CreateFileW_error env OutPipeName GENERIC_WRITE); [done|].
  destruct (VtInputThread_throws env); [done|].
  by destruct (Engine_throws env).
Qed.

Lemma Initialize_at_members
    (env : Oracle) (InPipeName OutPipeName VtMode : wstring) (this : VtIo) (w : World) :
  let r := Initialize_at env InPipeName OutPipeName VtMode this w in
  _IoMode (r.1.2) = (ParseIoMode VtMode).2 ∧
  _usingVt (r.1.2) = match r.1.1 with RetOk => true | _ => _usingVt this end ∧
  _pVtRenderEngine (r.1.2)
    = match r.1.1 with RetOk => _pVtRenderEngine (r.1.2) | _ => _pVtRenderEngine this end ∧
  (r.1.1 = RetOk →
     is_Some (_pVtInputThread (r.1.2)) ∧ is_Some (_pVtRenderEngine (r.1.2))) ∧
  (_pVtInputThread (r.1.2) = _pVtInputThread this ∨ is_Some (_pVtInputThread (r.1.2))).
Proof.
  Initialize_cases env InPipeName OutPipeName VtMode w;
    repeat split; try done; eauto.
Qed.

(** C9: the [default:] case of the switch, which returns E_FAIL, is
    never the place where [Initialize] returns: when [ParseIoMode]
    succeeds the mode it stored is XTERM_256, XTERM or WIN_TELNET, and
    when it fails [Initialize] has returned before the switch. *)
Theorem Initialize_default_case_unreachable
    (env : Oracle) (InPipeName OutPipeName VtMode : wstring) (this : VtIo) (w : World) :
  (SUCCEEDED ((ParseIoMode VtMode).1) = true →
     (ParseIoMode VtMode).2 = XTERM_256 ∨ (ParseIoMode VtMode).2 = XTERM ∨
     (ParseIoMode VtMode).2 = WIN_TELNET) ∧
  (Initialize_at env InPipeName OutPipeName VtMode this w).1.1 ≠ RetDefault.
Proof.
  split.
  - parse_cases VtMode m Hp Hm; rewrite Hp; simpl; [discriminate | done].
  - rewrite Initialize_at_first_failure. apply first_failure_not_default.
Qed.

(** ** StartIfNeeded *)

(** C5: on an instance that is not configured, [StartIfNeeded] returns
    S_FALSE, a success code other than S_OK, and changes neither the
    instance nor the world: nothing is registered with the renderer and
    the decoder is not started. *)
Theorem StartIfNeeded_unconfigured_is_noop (env : Oracle) (this : VtIo) (w : World)
    (Hnot : IsUsingVt this = false) :
  StartIfNeeded env this w = Some (S_FALSE, this, w) ∧
  SUCCEEDED S_FALSE = true ∧ FAILED S_FALSE = false ∧ S_FALSE ≠ S_OK.
Proof. unfold StartIfNeeded. rewrite Hnot. by repeat split. Qed.

(** C6: on a configured instance [StartIfNeeded] calls AddRenderEngine
    and only then Start; when AddRenderEngine throws, it returns the
    failure code of the exception, Start is not called and the decoder
    is left as it was. *)
Theorem StartIfNeeded_registers_before_start (env : Oracle) (this : VtIo) (w : World)
    (Hcfg : IsUsingVt this = true) :
  (∀ e, AddRenderEngine_throws env = Some e →
     StartIfNeeded env this w =
       Some (exn_hr e, this, record (EvAddRenderEngine (_pVtRenderEngine this)) w) ∧
     FAILED (exn_hr e) = true) ∧
  (AddRenderEngine_throws env = None →
     ∀ t, _pVtInputThread this = Some t →
     ∃ w',
       StartIfNeeded env this w =
         Some (S_OK,
               set_pVtInputThread (Some {| _hFile := _hFile t; _started := true |}) this,
               w') ∧
       log w' = log w ++ [EvAddRenderEngine (_pVtRenderEngine this); EvStart (_hFile t)] ∧
       rgpEngines w' = rgpEngines w ++ [_pVtRenderEngine this] ∧
       handles w' = handles w).
Proof.
  unfold StartIfNeeded, AddRenderEngine. rewrite Hcfg. simpl. split.
  - intros e ->. split; [done | apply (exn_failed e)].
  - intros -> t ->. simpl. eexists. split; [reflexivity|]. simpl.
    by rewrite <- app_assoc.
Qed.

(** ** The configured flag *)

Lemma SUCCEEDED_not_FAILED (hr : HRESULT) : SUCCEEDED hr = negb (FAILED hr).
Proof. unfold SUCCEEDED, FAILED. destruct (Z.leb_spec 0 hr), (Z.ltb_spec hr 0); done || lia. Qed.

Lemma Initialize_flag
    (env : Oracle) (InPipeName OutPipeName VtMode : wstring) (this : VtIo) (w : World) :
  let r := Initialize env InPipeName OutPipeName VtMode this w in
  IsUsingVt (r.1.2) = SUCCEEDED (r.1.1) || IsUsingVt this.
Proof.
  unfold Initialize, IsUsingVt.
  pose proof (Initialize_at_members env InPipeName OutPipeName VtMode this w) as (_ & Hu & _).
  pose proof (Initialize_at_first_failure env InPipeName OutPipeName VtMode this w) as Hs.
  pose proof (first_failure_failed env InPipeName OutPipeName VtMode) as Hf.
  destruct (Initialize_at env InPipeName OutPipeName VtMode this w) as [[site this'] w'].
  simpl in *. rewrite Hu. rewrite <- Hs in Hf. destruct Hf as [-> | Hf]; [done|].
  rewrite SUCCEEDED_not_FAILED, Hf. simpl. by destruct site.
Qed.

Lemma Initialize_keeps_decoder
    (env : Oracle) (InPipeName OutPipeName VtMode : wstring) (this : VtIo) (w : World) :
  has_decoder_when_configured this →
  has_decoder_when_configured ((Initialize env InPipeName OutPipeName VtMode this w).1.2).
Proof.
  unfold Initialize, has_decoder_when_configured.
  pose proof (Initialize_at_members env InPipeName OutPipeName VtMode this w)
    as (_ & Hu & _ & Hok & Hthr).
  destruct (Initialize_at env InPipeName OutPipeName VtMode this w) as [[site this'] w'].
  simpl in *. intros Hinv Hcfg. rewrite Hu in Hcfg.
  destruct Hthr as [Heq | Hsome]; [|done].
  destruct site; try (rewrite Heq; by auto). apply (proj1 (Hok eq_refl)).
Qed.

Lemma StartIfNeeded_flag (env : Oracle) (this : VtIo) (w : World) :
  match StartIfNeeded env this w with
  | Some r => IsUsingVt (r.1.2) = IsUsingVt this ∧
              (has_decoder_when_configured this → has_decoder_when_configured (r.1.2))
  | None => IsUsingVt this = true ∧ _pVtInputThread this = None
  end.
Proof.
  unfold StartIfNeeded, AddRenderEngine.
  destruct (IsUsingVt this) eqn:Hcfg; simpl; [|done].
  destruct (AddRenderEngine_throws env); simpl; [done|].
  destruct (_pVtInputThread this) eqn:Ht; simpl; [|done].
  split; [done|]. unfold has_decoder_when_configured. simpl. eauto.
Qed.

Lemma run_flag (calls : list Call) (this : VtIo) (w : World) :
  has_decoder_when_configured this →
  ∃ hrs this' w',
    run calls this w = Some (hrs, this', w') ∧
    length hrs = length calls ∧
    IsUsingVt this' = IsUsingVt this || some_Initialize_succeeded calls hrs.
Proof.
  revert this w. induction calls as [|c calls IH]; intros this w Hinv.
  - exists [], this, w. simpl. by rewrite orb_false_r.
  - destruct c as [env i o m | env]; simpl.
    + pose proof (Initialize_flag env i o m this w) as Hflag.
      pose proof (Initialize_keeps_decoder env i o m this w Hinv) as Hinv'.
      destruct (Initialize env i o m this w) as [[hr this1] w1]. simpl in *.
      destruct (IH this1 w1 Hinv') as (hrs & this' & w' & -> & Hlen & Hf).
      exists (hr :: hrs), this', w'. simpl. split; [done|]. split; [by rewrite Hlen|].
      rewrite Hf, Hflag. by destruct (SUCCEEDED hr), (IsUsingVt this).
    + pose proof (StartIfNeeded_flag env this w) as Hflag.
      destruct (StartIfNeeded env this w) as [[[hr this1] w1]|]; simpl in *.
      * destruct Hflag as [Hflag Hinv'].
        destruct (IH this1 w1 (Hinv' Hinv)) as (hrs & this' & w' & -> & Hlen & Hf).
        exists (hr :: hrs), this', w'. simpl. split; [done|]. split; [by rewrite Hlen|].
        by rewrite Hf, Hflag.
      * destruct Hflag as [Hcfg Hnone]. destruct (Hinv Hcfg) as [t Ht]. congruence.
Qed.

(** C4, as amended: [IsUsingVt] is false on a new instance; a call of
    [Initialize] that fails leaves it as it was (false only if no
    earlier call succeeded), and one that succeeds makes it true;
    [StartIfNeeded] never changes it.  So after any sequence of calls on
    a new instance it is true exactly when some [Initialize] of the
    sequence succeeded, also when a later [Initialize] failed. *)
Theorem IsUsingVt_tracks_successful_Initialize :
  (∀ indeterminate, IsUsingVt (VtIo_ctor indeterminate) = false) ∧
  (∀ env InPipeName OutPipeName VtMode this w,
      let r := Initialize env InPipeName OutPipeName VtMode this w in
      IsUsingVt (r.1.2) = SUCCEEDED (r.1.1) || IsUsingVt this) ∧
  (∀ env this w,
      match StartIfNeeded env this w with
      | Some r => IsUsingVt (r.1.2) = IsUsingVt this
      | None => True
      end) ∧
  (∀ calls indeterminate w,
      ∃ hrs this' w',
        run calls (VtIo_ctor indeterminate) w = Some (hrs, this', w') ∧
        length hrs = length calls ∧
        IsUsingVt this' = some_Initialize_succeeded calls hrs).
Proof.
  split; [done|]. split; [apply Initialize_flag|]. split.
  - intros env this w. pose proof (StartIfNeeded_flag env this w) as H.
    destruct (StartIfNeeded env this w); [apply H | done].
  - intros calls g w.
    destruct (run_flag calls (VtIo_ctor g) w) as (hrs & this' & w' & Hrun & Hlen & Hf);
      [intros Hc; discriminate|].
    by exists hrs, this', w'.
Qed.

(** C4, as the claim words it, fails: [IsUsingVt] is not false after
    every failed [Initialize].  On a new instance, [Initialize] with
    "xterm" succeeds and a second [Initialize] with the unknown token
    "bogus" then returns E_INVALIDARG, a failure, while [IsUsingVt] is
    still true: nothing in a failed call resets [_usingVt]. *)
Lemma IsUsingVt_true_after_failed_Initialize :
  let r1 := Initialize all_succeed conin conout (L "xterm")
              (VtIo_ctor INVALID) empty_world in
  let r2 := Initialize all_succeed conin conout (L "bogus") (r1.1.2) (r1.2) in
  r1.1.1 = S_OK ∧
  r2.1.1 = E_INVALIDARG ∧ FAILED (r2.1.1) = true ∧
  IsUsingVt (r2.1.2) = true ∧
  run [CallInitialize all_succeed conin conout (L "xterm");
       CallInitialize all_succeed conin conout (L "bogus")]
      (VtIo_ctor INVALID) empty_world
    = Some ([S_OK; E_INVALIDARG], r2.1.2, r2.2) ∧
  ¬ (∀ env InPipeName OutPipeName VtMode this w,
       FAILED ((Initialize env InPipeName OutPipeName VtMode this w).1.1) = true →
       IsUsingVt ((Initialize env InPipeName OutPipeName VtMode this w).1.2) = false).
Proof.
  intros r1 r2.
  assert (Hfail : FAILED (r2.1.1) = true) by (vm_compute; reflexivity).
  assert (Hflag : IsUsingVt (r2.1.2) = true) by (vm_compute; reflexivity).
  split; [vm_compute; reflexivity|]. split; [vm_compute; reflexivity|].
  split; [exact Hfail|]. split; [exact Hflag|].
  split; [vm_compute; reflexivity|].
  intros Hall.
  specialize (Hall all_succeed conin conout (L "bogus") (r1.1.2) (r1.2) Hfail).
  fold r2 in Hall. rewrite Hflag in Hall. discriminate.
Qed.

(** ** Initialize: what a failed call leaves behind *)

(** C10: a call of [Initialize] that fails has still written the mode
    member: it holds what [ParseIoMode] stored, INVALID for an unknown
    token and the resolved dialect when a later step failed, whatever
    it held before; the flag is the one the instance had. *)
Theorem failed_Initialize_overwrites_IoMode
    (env : Oracle) (InPipeName OutPipeName VtMode : wstring) (this : VtIo) (w : World)
    (Hfail : FAILED ((Initialize env InPipeName OutPipeName VtMode this w).1.1) = true) :
  let this' := (Initialize env InPipeName OutPipeName VtMode this w).1.2 in
  _IoMode this' = (ParseIoMode VtMode).2 ∧
  (FAILED ((ParseIoMode VtMode).1) = true → _IoMode this' = INVALID) ∧
  (FAILED ((ParseIoMode VtMode).1) = false →
     _IoMode this' = XTERM_256 ∨ _IoMode this' = XTERM ∨ _IoMode this' = WIN_TELNET) ∧
  IsUsingVt this' = IsUsingVt this.
Proof.
  pose proof (Initialize_flag env InPipeName OutPipeName VtMode this w) as Hflag.
  simpl in Hflag. rewrite SUCCEEDED_not_FAILED, Hfail in Hflag. simpl in Hflag.
  revert Hfail Hflag. unfold Initialize.
  pose proof (Initialize_at_members env InPipeName OutPipeName VtMode this w) as (Hmode & _).
  destruct (Initialize_at env InPipeName OutPipeName VtMode this w) as [[site this'] w'].
  simpl in *. intros _ Hflag. rewrite Hmode.
  parse_cases VtMode m Hp Hm; rewrite Hp; simpl; repeat split; try done.
Qed.

(** ** Initialize: the engine for each dialect *)

Lemma elem_of_handles_unique_hfile_dtor (x : HANDLE) (h : unique_hfile) (w : World) :
  x ≠ h → x ∈ handles w → x ∈ handles (unique_hfile_dtor h w).
Proof.
  intros Hne Hx. unfold unique_hfile_dtor.
  destruct (decide (h = INVALID_HANDLE_VALUE)); [done|]. simpl.
  apply elem_of_difference. split; [done|]. by rewrite elem_of_singleton.
Qed.

Lemma elem_of_handles_VtInputThread_dtor (x : HANDLE) (p : option VtInputThread) (w : World) :
  (∀ t, p = Some t → x ≠ _hFile t) → x ∈ handles w → x ∈ handles (VtInputThread_dtor p w).
Proof.
  destruct p as [t|]; simpl; [|done].
  intros Hne. apply elem_of_handles_unique_hfile_dtor. by apply Hne.
Qed.

Lemma elem_of_handles_VtEngine_dtor (x : HANDLE) (p : option VtEngine) (w : World) :
  (∀ e, p = Some e → x ≠ engine_hFile e) → x ∈ handles w → x ∈ handles (VtEngine_dtor p w).
Proof.
  destruct p as [e|]; simpl; [|done].
  intros Hne. apply elem_of_handles_unique_hfile_dtor. by apply Hne.
Qed.

Lemma to_WORD_small (n : Z) : 0 <= n < 2 ^ 16 → to_WORD n = n.
Proof. intros Hn. unfold to_WORD. by apply Z.mod_small. Qed.

Lemma not_owned_decoder (x : HANDLE) (this : VtIo) (t : VtInputThread) :
  x ∉ owned this → _pVtInputThread this = Some t → x ≠ _hFile t.
Proof.
  intros Hx Ht ->. apply Hx. unfold owned. rewrite Ht.
  apply elem_of_union. left. by apply elem_of_singleton.
Qed.

Lemma not_owned_engine (x : HANDLE) (this : VtIo) (e : VtEngine) :
  x ∉ owned this → _pVtRenderEngine this = Some e → x ≠ engine_hFile e.
Proof.
  intros Hx He ->. apply Hx. unfold owned. rewrite He.
  apply elem_of_union. right. by apply elem_of_singleton.
Qed.

(** A handle that [this] does not own stays open when the decoder and
    the engine [this] holds are replaced. *)
Lemma open_after_replacement (x : HANDLE) (this : VtIo) (ev : Event) (w : World) :
  x ∉ owned this → x ∈ handles w →
  x ∈ handles (VtEngine_dtor (_pVtRenderEngine this)
                 (record ev (VtInputThread_dtor (_pVtInputThread this) w))).
Proof.
  intros Hx Hw. apply elem_of_handles_VtEngine_dtor.
  - intros e He. by apply (not_owned_engine x this e).
  - change (x ∈ handles (VtInputThread_dtor (_pVtInputThread this) w)).
    apply elem_of_handles_VtInputThread_dtor; [|done].
    intros t Ht. by apply (not_owned_decoder x this t).
Qed.

(** C8: when every step succeeds, the decoder is built from the input
    handle and the engine from the output handle, the engine being the
    one of the resolved mode: an Xterm256Engine without a colour table
    for XTERM_256, an XtermEngine or a WinTelnetEngine with the
    console's colour table and its size for XTERM and WIN_TELNET.  Both
    handles are open when [Initialize] returns: they now belong to the
    decoder and to the engine. *)
Theorem Initialize_builds_engine_of_mode
    (env : Oracle) (InPipeName OutPipeName VtMode : wstring) (this : VtIo) (w : World)
    (Hparse : SUCCEEDED ((ParseIoMode VtMode).1) = true)
    (Hin : CreateFileW_error env InPipeName GENERIC_READ = None)
    (Hout : CreateFileW_error env OutPipeName GENERIC_WRITE = None)
    (Hthread : VtInputThread_throws env = None)
    (Hengine : Engine_throws env = None)
    (Hsize : 0 <= GetColorTableSize (gci env) < 2 ^ 16)
    (Howned : owned this ⊆ handles w) :
  let r := Initialize env InPipeName OutPipeName VtMode this w in
  let mode := (ParseIoMode VtMode).2 in
  ∃ (hIn hOut : HANDLE) (new : list Event),
    r.1.1 = S_OK ∧
    log (r.2) = log w ++ new ∧
    steps new =
      [EvCreateFileW InPipeName GENERIC_READ hIn;
       EvCreateFileW OutPipeName GENERIC_WRITE hOut;
       EvNewVtInputThread hIn;
       EvNewEngine mode hOut] ∧
    _pVtInputThread (r.1.2) = Some {| _hFile := hIn; _started := false |} ∧
    _pVtRenderEngine (r.1.2) =
      Some match mode with
           | XTERM_256 => Xterm256Engine hOut
           | XTERM =>
               XtermEngine hOut (GetColorTable (gci env)) (GetColorTableSize (gci env))
           | _ =>
               WinTelnetEngine hOut (GetColorTable (gci env)) (GetColorTableSize (gci env))
           end ∧
    mode ≠ INVALID ∧ _IoMode (r.1.2) = mode ∧
    hIn ≠ hOut ∧ hIn ∈ handles (r.2) ∧ hOut ∈ handles (r.2).
Proof.
  intros r mode. subst r mode.
  parse_cases VtMode m Hp Hm; rewrite Hp in Hparse |- *; [discriminate|]. clear Hparse.
  unfold Initialize, Initialize_at, make_VtInputThread, CreateFileW,
    unique_hfile_reset, leave, moved_from.
  rewrite Hp. simpl. rewrite Hin. simpl.
  rewrite (decide_False (P := new_handle w = INVALID_HANDLE_VALUE))
    by apply new_handle_valid.
  rewrite Hout. simpl. rewrite ?unique_hfile_dtor_invalid.
  set (w1 := record _ _).
  rewrite (decide_False (P := new_handle w1 = INVALID_HANDLE_VALUE))
    by apply new_handle_valid.
  rewrite Hthread. simpl.
  pose proof (new_handle_fresh w) as Hf. pose proof (new_handle_fresh w1) as Hf1.
  assert (Hh1 : handles w1 = {[new_handle w]} ∪ handles w) by reflexivity.
  assert (Hne : new_handle w ≠ new_handle w1).
  { intros Heq. apply Hf1. rewrite Hh1, <- Heq.
    apply elem_of_union. left. by apply elem_of_singleton. }
  assert (Hw1 : new_handle w1 ∉ handles w).
  { intros Hx. apply Hf1. rewrite Hh1. apply elem_of_union. by right. }
  assert (Ho : new_handle w ∉ owned this) by (intros Hx; by apply Hf, Howned).
  assert (Ho1 : new_handle w1 ∉ owned this) by (intros Hx; by apply Hw1, Howned).
  rewrite (to_WORD_small _ Hsize).
  clearbody w1.
  destruct Hm as [-> | [-> | ->]];
    unfold construct_engine, make_Engine, leave, moved_from;
    rewrite Hengine; simpl; rewrite ?unique_hfile_dtor_invalid.
  all: match goal with
       | |- context [VtEngine_dtor ?pe (record ?ev (VtInputThread_dtor ?pt ?w0))] =>
           destruct (log_VtInputThread_dtor pt w0) as (cl1 & Hcl1 & Hs1);
           destruct (log_VtEngine_dtor pe (record ev (VtInputThread_dtor pt w0)))
             as (cl2 & Hcl2 & Hs2);
           pose proof (open_after_replacement (new_handle w) this ev w0 Ho) as Hk;
           pose proof (open_after_replacement (new_handle w1) this ev w0 Ho1) as Hk1
       end.
  all: cbn [log record] in Hcl1, Hcl2; rewrite Hcl1 in Hcl2;
    rewrite <- !app_assoc in Hcl2; cbn [app] in Hcl2.
  all: cbn [handles record] in Hk, Hk1.
  all: exists (new_handle w), (new_handle w1); eexists.
  all: split; [done|]; split; [exact Hcl2|]; split.
  all: try (match goal with
            | |- steps (?a :: ?b :: ?c :: ?l1 ++ ?d :: ?l2) = _ =>
                change (steps ([a; b; c] ++ l1 ++ [d] ++ l2) = [a; b; c; d])
            end;
            rewrite !steps_app, Hs1, Hs2; reflexivity).
  all: repeat (split; [done|]).
  all: split; [apply Hk | apply Hk1].
  all: rewrite !elem_of_union, !elem_of_singleton; auto.
Qed.

(** ** Initialize: a failure of the engine's constructor *)

(** X1: A failure before the engine is constructed (unknown token, a pipe
    that does not open, a decoder whose constructor throws) leaves
    open the handles that were open before the call and does not touch
    the decoder, the engine or the flag of the instance. *)
Lemma Initialize_failure_before_engine_is_atomic
    (env : Oracle) (InPipeName OutPipeName VtMode : wstring) (this : VtIo) (w : World) :
  FAILED ((ParseIoMode VtMode).1) = true ∨
  is_Some (CreateFileW_error env InPipeName GENERIC_READ) ∨
  is_Some (CreateFileW_error env OutPipeName GENERIC_WRITE) ∨
  is_Some (VtInputThread_throws env) →
  let r := Initialize env InPipeName OutPipeName VtMode this w in
  FAILED (r.1.1) = true ∧
  handles (r.2) = handles w ∧
  rgpEngines (r.2) = rgpEngines w ∧
  _pVtInputThread (r.1.2) = _pVtInputThread this ∧
  _pVtRenderEngine (r.1.2) = _pVtRenderEngine this ∧
  _usingVt (r.1.2) = _usingVt this.
Proof.
  intros Hcase. unfold Initialize.
  pose proof (new_handle_fresh w) as Hf.
  Initialize_cases env InPipeName OutPipeName VtMode w.
  all: try (exfalso; rewrite Hp in Hcase;
            destruct Hcase as [H|[[? H]|[[? H]|[? H]]]]; discriminate).
  - by repeat split.
  - repeat split; auto using FAILED_GetLastErrorFailHr.
  - rewrite ?unique_hfile_dtor_invalid, unique_hfile_dtor_valid by apply new_handle_valid.
    cbn [handles rgpEngines record CloseHandle].
    rewrite open_close_restores by done.
    repeat split; auto using FAILED_GetLastErrorFailHr.
  - match goal with
    | |- context [{[new_handle ?w1]} ∪ ({[_]} ∪ _)] =>
        pose proof (new_handle_fresh w1) as Hf1;
        pose proof (new_handle_valid w1) as Hv1;
        cbn [handles record] in Hf1;
        generalize dependent (new_handle w1)
    end.
    intros h1 Hf1 Hv1.
    rewrite ?unique_hfile_dtor_invalid, !unique_hfile_dtor_valid
      by (done || apply new_handle_valid).
    cbn [handles rgpEngines record CloseHandle].
    rewrite open_two_close_two by done.
    repeat split; try done. match goal with e : exception |- _ => apply (exn_failed e) end.
Qed.

(** C2: the code does not keep this claim.  When both pipes open and
    the decoder is built, but the engine's constructor throws (here
    std::bad_alloc for the token "xterm" on a new instance),
    [Initialize] returns the failure and leaves the flag false, yet the
    decoder it built stays in [_pVtInputThread] and keeps the input
    handle: one more handle is open than before the call. *)
Theorem Initialize_engine_failure_keeps_decoder :
  let r := Initialize engine_out_of_memory conin conout (L "xterm")
             (VtIo_ctor INVALID) empty_world in
  r.1.1 = E_OUTOFMEMORY ∧ FAILED (r.1.1) = true ∧
  IsUsingVt (r.1.2) = false ∧
  _pVtRenderEngine (r.1.2) = None ∧
  _pVtInputThread (r.1.2) = Some {| _hFile := 1; _started := false |} ∧
  handles (r.2) = {[1]} ∧
  size (handles (r.2)) = S (size (handles empty_world)) ∧
  log (r.2) =
    [EvCreateFileW conin GENERIC_READ 1; EvCreateFileW conout GENERIC_WRITE 2;
     EvNewVtInputThread 1; EvNewEngine XTERM 2; EvCloseHandle 2].
Proof. vm_compute. repeat split. Qed.

(** ** The theorems at concrete calls *)

(** The output pipe is missing: the input handle is closed again. *)
Lemma Initialize_partial_open_releases_input_witness :
  SUCCEEDED ((ParseIoMode (L "")).1) = true ∧
  let r := Initialize (missing_pipe conout) conin conout (L "")
             (VtIo_ctor INVALID) empty_world in
  FAILED (r.1.1) = true ∧ handles (r.2) = handles empty_world ∧
  log (r.2) =
    [EvCreateFileW conin GENERIC_READ (new_handle empty_world);
     EvCreateFileW conout GENERIC_WRITE INVALID_HANDLE_VALUE;
     EvCloseHandle (new_handle empty_world)].
Proof.
  split; [reflexivity|].
  destruct (Initialize_partial_open_releases_input (missing_pipe conout) conin conout
              (L "") (VtIo_ctor INVALID) empty_world eq_refl) as [Hout _].
  destruct (Hout ERROR_FILE_NOT_FOUND eq_refl eq_refl) as (_ & Hfail & Hh & _ & Hlog).
  repeat split; assumption.
Defined.

Lemma StartIfNeeded_unconfigured_is_noop_witness :
  IsUsingVt (VtIo_ctor INVALID) = false ∧
  StartIfNeeded all_succeed (VtIo_ctor INVALID) empty_world =
    Some (S_FALSE, VtIo_ctor INVALID, empty_world).
Proof.
  split; [reflexivity|].
  exact (proj1 (StartIfNeeded_unconfigured_is_noop all_succeed (VtIo_ctor INVALID)
                  empty_world eq_refl)).
Defined.

(** A configured instance, as [Initialize] leaves it for "xterm". *)
Lemma StartIfNeeded_registers_before_start_witness :
  let this := (Initialize all_succeed conin conout (L "xterm")
                 (VtIo_ctor INVALID) empty_world).1.2 in
  IsUsingVt this = true ∧
  StartIfNeeded renderer_out_of_memory this empty_world =
    Some (E_OUTOFMEMORY, this,
          record (EvAddRenderEngine (_pVtRenderEngine this)) empty_world).
Proof.
  split; [reflexivity|].
  exact (proj1 (proj1 (StartIfNeeded_registers_before_start renderer_out_of_memory
                         (Initialize all_succeed conin conout (L "xterm")
                            (VtIo_ctor INVALID) empty_world).1.2
                         empty_world eq_refl) bad_alloc eq_refl)).
Defined.

Lemma Initialize_builds_engine_of_mode_witness :
  let r := Initialize all_succeed conin conout (L "win-telnet")
             (VtIo_ctor INVALID) empty_world in
  ∃ hIn hOut : HANDLE,
    r.1.1 = S_OK ∧
    _pVtInputThread (r.1.2) = Some {| _hFile := hIn; _started := false |} ∧
    _pVtRenderEngine (r.1.2) = Some (WinTelnetEngine hOut (GetColorTable console) 16) ∧
    hIn ≠ hOut ∧ hIn ∈ handles (r.2) ∧ hOut ∈ handles (r.2).
Proof.
  assert (Hsize : 0 <= GetColorTableSize (gci all_succeed) < 2 ^ 16)
    by (split; [discriminate | reflexivity]).
  assert (Howned : owned (VtIo_ctor INVALID) ⊆ handles empty_world).
  { intros x Hx. unfold owned in Hx. simpl in Hx.
    apply elem_of_union in Hx. destruct Hx as [Hx | Hx]; by apply elem_of_empty in Hx. }
  destruct (Initialize_builds_engine_of_mode all_succeed conin conout (L "win-telnet")
              (VtIo_ctor INVALID) empty_world eq_refl eq_refl eq_refl eq_refl eq_refl
              Hsize Howned)
    as (hIn & hOut & new & Hhr & _ & _ & Hthread & Hengine & _ & _ & Hne & Hi & Ho).
  exists hIn, hOut. repeat split; assumption.
Defined.

(** An unknown token on an instance that held XTERM, and a missing
    input pipe for "win-telnet": the mode is INVALID, then WIN_TELNET. *)
Lemma failed_Initialize_overwrites_IoMode_witness :
  let this := set_IoMode XTERM (VtIo_ctor INVALID) in
  FAILED ((Initialize all_succeed conin conout (L "bogus") this empty_world).1.1) = true ∧
  _IoMode ((Initialize all_succeed conin conout (L "bogus") this empty_world).1.2)
    = INVALID ∧
  _IoMode ((Initialize (missing_pipe conin) conin conout (L "win-telnet")
              this empty_world).1.2)
    = WIN_TELNET.
Proof.
  split; [reflexivity|]. split.
  - exact (proj1 (failed_Initialize_overwrites_IoMode all_succeed conin conout (L "bogus")
                    (set_IoMode XTERM (VtIo_ctor INVALID)) empty_world eq_refl)).
  - exact (proj1 (failed_Initialize_overwrites_IoMode (missing_pipe conin) conin conout
                    (L "win-telnet") (set_IoMode XTERM (VtIo_ctor INVALID)) empty_world
                    eq_refl)).
Defined.

(** ** The handles a reachable instance holds *)

Lemma consistent_decoder (this : VtIo) (w : World) (t : VtInputThread) :
  consistent this w → _pVtInputThread this = Some t →
  _hFile t ∈ handles w ∧ _hFile t ≠ INVALID_HANDLE_VALUE.
Proof.
  intros (Hinv & Hown & _) Ht.
  assert (Hin : _hFile t ∈ handles w).
  { apply Hown. unfold owned. rewrite Ht. apply elem_of_union. left.
    by apply elem_of_singleton. }
  split; [done|]. intros Heq. apply Hinv. by rewrite <- Heq.
Qed.

Lemma consistent_engine (this : VtIo) (w : World) (e : VtEngine) :
  consistent this w → _pVtRenderEngine this = Some e →
  engine_hFile e ∈ handles w ∧ engine_hFile e ≠ INVALID_HANDLE_VALUE.
Proof.
  intros (Hinv & Hown & _) He.
  assert (Hin : engine_hFile e ∈ handles w).
  { apply Hown. unfold owned. rewrite He. apply elem_of_union. right.
    by apply elem_of_singleton. }
  split; [done|]. intros Heq. apply Hinv. by rewrite <- Heq.
Qed.

Lemma handles_unique_hfile_dtor (h : unique_hfile) (w : World) :
  INVALID_HANDLE_VALUE ∉ handles w →
  handles (unique_hfile_dtor h w) = handles w ∖ {[h]}.
Proof.
  intros Hinv. unfold unique_hfile_dtor.
  destruct (decide (h = INVALID_HANDLE_VALUE)) as [-> | Hne]; [|done].
  apply set_eq. intros x. rewrite elem_of_difference, elem_of_singleton.
  split; [intros Hx; split; [done | by intros ->] | by intros [Hx _]].
Qed.

Lemma handles_VtInputThread_dtor (p : option VtInputThread) (w : World) :
  INVALID_HANDLE_VALUE ∉ handles w →
  handles (VtInputThread_dtor p w) =
  handles w ∖ match p with Some t => {[_hFile t]} | None => ∅ end.
Proof.
  intros Hinv. destruct p as [t|]; simpl.
  - by apply handles_unique_hfile_dtor.
  - apply set_eq. intros x. rewrite elem_of_difference. split; [|by intros [Hx _]].
    intros Hx. split; [done|]. apply not_elem_of_empty.
Qed.

Lemma handles_VtEngine_dtor (p : option VtEngine) (w : World) :
  INVALID_HANDLE_VALUE ∉ handles w →
  handles (VtEngine_dtor p w) =
  handles w ∖ match p with Some e => {[engine_hFile e]} | None => ∅ end.
Proof.
  intros Hinv. destruct p as [e|]; simpl.
  - by apply handles_unique_hfile_dtor.
  - apply set_eq. intros x. rewrite elem_of_difference. split; [|by intros [Hx _]].
    intros Hx. split; [done|]. apply not_elem_of_empty.
Qed.

Lemma Initialize_at_consistent
    (env : Oracle) (InPipeName OutPipeName VtMode : wstring) (this : VtIo) (w : World) :
  consistent this w →
  let r := Initialize_at env InPipeName OutPipeName VtMode this w in
  consistent (r.1.2) (r.2).
Proof.
  intros Hc.
  pose proof (new_handle_fresh w) as Hf. pose proof (new_handle_valid w) as Hv.
  Initialize_cases env InPipeName OutPipeName VtMode w.
  all: rewrite ?unique_hfile_dtor_invalid.
  1-2: exact Hc.
  all: try match goal with
    | |- context [{[new_handle ?w1]} ∪ ({[_]} ∪ _)] =>
        pose proof (new_handle_fresh w1) as Hf1;
        pose proof (new_handle_valid w1) as Hv1;
        cbn [handles record] in Hf1;
        generalize dependent (new_handle w1); intros h1 Hf1 Hv1
    end.
  all: generalize dependent (new_handle w); intros h Hf Hv; intros.
  all: assert (Hdec : ∀ t, _pVtInputThread this = Some t →
                       _hFile t ∈ handles w ∧ _hFile t ≠ INVALID_HANDLE_VALUE)
         by (intros t0 Ht0; by apply (consistent_decoder this w t0));
       assert (Heng : ∀ e, _pVtRenderEngine this = Some e →
                       engine_hFile e ∈ handles w ∧ engine_hFile e ≠ INVALID_HANDLE_VALUE)
         by (intros e0 He0; by apply (consistent_engine this w e0));
       destruct Hc as (Hinv & _ & Hdiff & Hboth).
  all: destruct (_pVtInputThread this) as [t|] eqn:Ht;
       destruct (_pVtRenderEngine this) as [e'|] eqn:He;
       try (destruct (Hdec t eq_refl) as [Hdt Hdv]);
       try (destruct (Heng e' eq_refl) as [Het Hev]);
       try (pose proof (Hdiff t e' eq_refl eq_refl) as Hte);
       clear Hdec Heng Hdiff.
  all: cbn [VtInputThread_dtor VtEngine_dtor];
    repeat rewrite unique_hfile_dtor_valid by assumption.
  all: unfold consistent, owned, set_usingVt, set_pVtRenderEngine, set_pVtInputThread,
         set_IoMode, CloseHandle, record;
    cbn [handles _pVtInputThread _pVtRenderEngine _usingVt _hFile engine_hFile];
    rewrite ?Ht, ?He.
  all: split; [|split; [|split]].
  all: try (intros Hu;
            first [ done
                  | apply Hboth, Hu
                  | destruct (Hboth Hu) as [[? ?] [? ?]]; simplify_eq; eauto ]).
  all: try (intros ? ? [= <-] [= <-]; cbn [_hFile engine_hFile]).
  all: clear Hboth.
  all: set_unfold; intuition (subst; congruence).
Qed.

Lemma StartIfNeeded_consistent (env : Oracle) (this : VtIo) (w : World) :
  consistent this w →
  ∃ hr this' w', StartIfNeeded env this w = Some (hr, this', w') ∧ consistent this' w'.
Proof.
  intros Hc. pose proof Hc as (Hinv & Hown & Hdiff & Hboth).
  unfold StartIfNeeded, AddRenderEngine, Start.
  destruct (IsUsingVt this) eqn:Hcfg; cbn [negb].
  - destruct (Hboth Hcfg) as [[t Ht] _].
    destruct (AddRenderEngine_throws env) as [e|]; [by eauto|].
    rewrite Ht. eexists _, _, _. split; [reflexivity|].
    unfold consistent, owned, set_pVtInputThread, record in *.
    cbn [handles _pVtInputThread _pVtRenderEngine _usingVt _hFile] in *.
    rewrite Ht in Hown, Hdiff. split; [done|]. split; [done|]. split.
    + intros t0 e0 [= <-] He0. cbn [_hFile]. by apply (Hdiff t e0).
    + intros Hu. split; [by eauto | by apply Hboth].
  - by eauto.
Qed.

Lemma Initialize_consistent
    (env : Oracle) (InPipeName OutPipeName VtMode : wstring) (this : VtIo) (w : World) :
  consistent this w →
  let r := Initialize env InPipeName OutPipeName VtMode this w in
  consistent (r.1.2) (r.2).
Proof.
  intros Hc. unfold Initialize.
  pose proof (Initialize_at_consistent env InPipeName OutPipeName VtMode this w Hc) as H.
  by destruct (Initialize_at env InPipeName OutPipeName VtMode this w) as [[site this'] w'].
Qed.

Lemma run_consistent (calls : list Call) (this : VtIo) (w : World) :
  consistent this w →
  ∃ hrs this' w', run calls this w = Some (hrs, this', w') ∧ consistent this' w'.
Proof.
  revert this w. induction calls as [|c calls IH]; intros this w Hc.
  - by exists [], this, w.
  - destruct c as [env i o m | env]; simpl.
    + pose proof (Initialize_consistent env i o m this w Hc) as Hc1.
      destruct (Initialize env i o m this w) as [[hr this1] w1]. simpl in Hc1.
      destruct (IH this1 w1 Hc1) as (hrs & this' & w' & -> & Hc').
      by exists (hr :: hrs), this', w'.
    + destruct (StartIfNeeded_consistent env this w Hc) as (hr & this1 & w1 & -> & Hc1).
      simpl. destruct (IH this1 w1 Hc1) as (hrs & this' & w' & -> & Hc').
      by exists (hr :: hrs), this', w'.
Qed.

(** X2: After any sequence of [Initialize] and [StartIfNeeded] calls on a
    new instance, no call has dereferenced an empty pointer, the handles
    held by the decoder and by the engine are open, valid and different,
    and a configured instance holds both a decoder and an engine. *)
Theorem reachable_instance_is_consistent
    (calls : list Call) (indeterminate : VtIoMode) (w : World)
    (Hinv : INVALID_HANDLE_VALUE ∉ handles w) :
  ∃ hrs this' w',
    run calls (VtIo_ctor indeterminate) w = Some (hrs, this', w') ∧
    consistent this' w'.
Proof.
  apply run_consistent. unfold consistent, owned, VtIo_ctor.
  cbn [_pVtInputThread _pVtRenderEngine _usingVt].
  split; [done|]. split; [|split; [by intros ? ? ? | by intros ?]].
  intros x Hx. apply elem_of_union in Hx.
  destruct Hx as [Hx | Hx]; by apply elem_of_empty in Hx.
Qed.

(** ** StartIfNeeded: what each return code means *)

(** X3: [StartIfNeeded] never opens or closes a handle and never changes
    the flag, the mode or the engine of the instance.  It returns S_OK,
    S_FALSE or a failure code; with S_OK the renderer has gained the
    engine of the instance as its last engine and the decoder is
    started, with any other code the instance and the renderer's engines
    are as before.  The call is undefined only for a configured instance
    without a decoder. *)
Theorem StartIfNeeded_outcome (env : Oracle) (this : VtIo) (w : World) :
  match StartIfNeeded env this w with
  | Some r =>
      handles (r.2) = handles w ∧ last_error (r.2) = last_error w ∧
      _usingVt (r.1.2) = _usingVt this ∧ _IoMode (r.1.2) = _IoMode this ∧
      _pVtRenderEngine (r.1.2) = _pVtRenderEngine this ∧
      owned (r.1.2) = owned this ∧
      (r.1.1 = S_OK ∨ r.1.1 = S_FALSE ∨ FAILED (r.1.1) = true) ∧
      (r.1.1 = S_OK →
         IsUsingVt this = true ∧
         rgpEngines (r.2) = rgpEngines w ++ [_pVtRenderEngine this] ∧
         ∃ t, _pVtInputThread (r.1.2) = Some t ∧ _started t = true) ∧
      (r.1.1 ≠ S_OK → r.1.2 = this ∧ rgpEngines (r.2) = rgpEngines w)
  | None =>
      IsUsingVt this = true ∧ _pVtInputThread this = None ∧
      AddRenderEngine_throws env = None
  end.
Proof.
  unfold StartIfNeeded, AddRenderEngine, Start.
  destruct (IsUsingVt this) eqn:Hcfg; cbn [negb].
  - destruct (AddRenderEngine_throws env) as [e|] eqn:Hadd.
    + pose proof (exn_failed e) as Hfail.
      assert (Hne : exn_hr e ≠ S_OK) by (intros Hok; rewrite Hok in Hfail; discriminate).
      cbn [fst snd record handles last_error rgpEngines].
      split_and!; auto; done.
    + destruct (_pVtInputThread this) as [t|] eqn:Ht; [|done].
      cbn [fst snd record handles last_error rgpEngines set_pVtInputThread
             _usingVt _IoMode _pVtRenderEngine _pVtInputThread].
      split_and!; auto.
      * unfold owned. cbn [_pVtInputThread _pVtRenderEngine _hFile]. by rewrite Ht.
      * intros _. split_and!; [done | done | by eauto].
      * done.
  - cbn [fst snd]. split_and!; auto; discriminate.
Qed.

(** X4: [StartIfNeeded] has no guard against a second call: on a configured
    instance whose renderer accepts the engine, two calls in a row both
    return S_OK, register the same engine twice and start the decoder
    twice. *)
Theorem StartIfNeeded_twice_registers_twice
    (env1 env2 : Oracle) (this : VtIo) (w : World) (t : VtInputThread)
    (Hcfg : IsUsingVt this = true)
    (Ht : _pVtInputThread this = Some t)
    (Hadd1 : AddRenderEngine_throws env1 = None)
    (Hadd2 : AddRenderEngine_throws env2 = None) :
  ∃ this1 w1 w2,
    StartIfNeeded env1 this w = Some (S_OK, this1, w1) ∧
    StartIfNeeded env2 this1 w1 = Some (S_OK, this1, w2) ∧
    rgpEngines w2 = rgpEngines w ++ [_pVtRenderEngine this; _pVtRenderEngine this] ∧
    log w2 = log w ++
      [EvAddRenderEngine (_pVtRenderEngine this); EvStart (_hFile t);
       EvAddRenderEngine (_pVtRenderEngine this); EvStart (_hFile t)].
Proof.
  unfold StartIfNeeded, AddRenderEngine, Start, IsUsingVt in *.
  rewrite Hcfg, Hadd1, Ht. cbn [negb].
  eexists _, _, _. split; [reflexivity|].
  cbn [set_pVtInputThread _usingVt _pVtRenderEngine _pVtInputThread _hFile].
  rewrite Hcfg, Hadd2. cbn [negb].
  split; [reflexivity|].
  cbn [record rgpEngines log]. by rewrite <- !app_assoc.
Qed.

(** ** Initialize: its return value *)

(** X5: [Initialize] returns S_OK or a failure code, never another success
    code, and S_OK exactly when the token is one of the four known ones,
    both pipes open and neither constructor throws. *)
Theorem Initialize_S_OK_iff_every_step_succeeds
    (env : Oracle) (InPipeName OutPipeName VtMode : wstring) (this : VtIo) (w : World) :
  let hr := (Initialize env InPipeName OutPipeName VtMode this w).1.1 in
  (hr = S_OK ∨ FAILED hr = true) ∧
  (hr = S_OK ↔
     VtMode ∈ [L ""; L "xterm-256color"; L "xterm"; L "win-telnet"] ∧
     CreateFileW_error env InPipeName GENERIC_READ = None ∧
     CreateFileW_error env OutPipeName GENERIC_WRITE = None ∧
     VtInputThread_throws env = None ∧
     Engine_throws env = None).
Proof.
  unfold Initialize.
  pose proof (Initialize_at_first_failure env InPipeName OutPipeName VtMode this w) as Hs.
  destruct (Initialize_at env InPipeName OutPipeName VtMode this w) as [[site this'] w'].
  cbn [fst snd] in *. subst site.
  assert (Htok : VtMode ∈ [L ""; L "xterm-256color"; L "xterm"; L "win-telnet"] ↔
                 FAILED ((ParseIoMode VtMode).1) = false).
  { unfold ParseIoMode. rewrite !elem_of_cons, elem_of_nil.
    fold XTERM_256_STRING XTERM_STRING WIN_TELNET_STRING DEFAULT_STRING.
    destruct (decide (VtMode = XTERM_256_STRING)); [by intuition|].
    destruct (decide (VtMode = XTERM_STRING)); [by intuition|].
    destruct (decide (VtMode = WIN_TELNET_STRING)); [by intuition|].
    destruct (decide (VtMode = DEFAULT_STRING)); [by intuition|].
    cbn [fst]. split; [by intuition | discriminate]. }
  rewrite Htok. unfold first_failure.
  assert (Hne : ∀ hr, FAILED hr = true → hr ≠ S_OK) by (intros hr H ->; discriminate).
  destruct (FAILED ((ParseIoMode VtMode).1)) eqn:Hp; cbn [returned].
  { split; [by right|]. split; [discriminate | by intros [? _]]. }
  destruct (CreateFileW_error env InPipeName GENERIC_READ) as [e1|]; cbn [returned].
  { pose proof (FAILED_GetLastErrorFailHr e1) as Hf. split; [by right|].
    split; [by intros ?%(Hne _ Hf) | by intros (_ & ? & _)]. }
  destruct (CreateFileW_error env OutPipeName GENERIC_WRITE) as [e2|]; cbn [returned].
  { pose proof (FAILED_GetLastErrorFailHr e2) as Hf. split; [by right|].
    split; [by intros ?%(Hne _ Hf) | by intros (_ & _ & ? & _)]. }
  destruct (VtInputThread_throws env) as [e3|]; cbn [returned].
  { pose proof (exn_failed e3) as Hf. split; [by right|].
    split; [by intros ?%(Hne _ Hf) | by intros (_ & _ & _ & ? & _)]. }
  destruct (Engine_throws env) as [e4|]; cbn [returned].
  { pose proof (exn_failed e4) as Hf. split; [by right|].
    split; [by intros ?%(Hne _ Hf) | by intros (_ & _ & _ & _ & ?)]. }
  split; [by left|]. by repeat split.
Qed.

(** ** Initialize: the handles it opens and closes *)

(** Prepares a goal about the handles after [Initialize]: the cases of
    the oracle that contradict the hypotheses are closed, the handles the
    kernel returned become variables with the facts known of them, and
    the handles the instance held are known to be open and valid. *)
Ltac Initialize_handles env InPipeName OutPipeName VtMode this w Hc :=
  pose proof (new_handle_fresh w) as Hf; pose proof (new_handle_valid w) as Hv;
  Initialize_cases env InPipeName OutPipeName VtMode w;
  try discriminate;
  try match goal with H : Some _ = None |- _ => discriminate H end;
  try match goal with H : None = Some _ |- _ => discriminate H end;
  rewrite ?unique_hfile_dtor_invalid;
  try match goal with
    | |- context [{[new_handle ?w1]} ∪ ({[_]} ∪ _)] =>
        let Hf1 := fresh "Hf1" in
        let Hv1 := fresh "Hv1" in
        pose proof (new_handle_fresh w1) as Hf1;
        pose proof (new_handle_valid w1) as Hv1;
        cbn [handles record] in Hf1;
        generalize dependent (new_handle w1); intros h1 Hf1 Hv1
    end;
  generalize dependent (new_handle w); intros h Hf Hv; intros;
  assert (Hdec : ∀ t, _pVtInputThread this = Some t →
                  _hFile t ∈ handles w ∧ _hFile t ≠ INVALID_HANDLE_VALUE)
    by (let t' := fresh "t" in let H' := fresh "H" in
        intros t' H'; by apply (consistent_decoder this w t'));
  assert (Heng : ∀ e, _pVtRenderEngine this = Some e →
                  engine_hFile e ∈ handles w ∧ engine_hFile e ≠ INVALID_HANDLE_VALUE)
    by (let e' := fresh "e" in let H' := fresh "H" in
        intros e' H'; by apply (consistent_engine this w e'));
  destruct Hc as (Hinv & _ & Hdiff & Hboth);
  destruct (_pVtInputThread this) as [t|] eqn:Ht;
  destruct (_pVtRenderEngine this) as [e'|] eqn:He;
  try (destruct (Hdec t eq_refl) as [Hdt Hdv]);
  try (destruct (Heng e' eq_refl) as [Het Hev]);
  try (pose proof (Hdiff t e' eq_refl eq_refl) as Hte);
  clear Hdec Heng Hdiff Hboth;
  cbn [VtInputThread_dtor VtEngine_dtor];
  repeat rewrite unique_hfile_dtor_valid by assumption;
  unfold owned, decoder_handle, set_usingVt, set_pVtRenderEngine, set_pVtInputThread,
    set_IoMode, CloseHandle, record;
  cbn [fst snd handles _pVtInputThread _pVtRenderEngine _usingVt _hFile engine_hFile
       returned];
  rewrite ?Ht, ?He.

(** X6: A successful [Initialize] opens two new handles, which the new
    decoder and the new engine hold, and closes the handles of the
    decoder and the engine it replaces: on an instance that held none,
    two more handles are open than before. *)
Theorem Initialize_success_handle_balance
    (env : Oracle) (InPipeName OutPipeName VtMode : wstring) (this : VtIo) (w : World)
    (Hc : consistent this w)
    (Hparse : SUCCEEDED ((ParseIoMode VtMode).1) = true)
    (Hin : CreateFileW_error env InPipeName GENERIC_READ = None)
    (Hout : CreateFileW_error env OutPipeName GENERIC_WRITE = None)
    (Hthread : VtInputThread_throws env = None)
    (Hengine : Engine_throws env = None) :
  let r := Initialize env InPipeName OutPipeName VtMode this w in
  ∃ hIn hOut : HANDLE,
    (hIn ∉ handles w) ∧ (hOut ∉ handles w) ∧ hIn ≠ hOut ∧
    r.1.1 = S_OK ∧
    owned (r.1.2) = {[hIn; hOut]} ∧
    handles (r.2) = {[hIn; hOut]} ∪ (handles w ∖ owned this).
Proof.
  intros r. subst r. unfold Initialize. revert Hparse.
  Initialize_handles env InPipeName OutPipeName VtMode this w Hc.
  all: exists h, h1.
  all: split_and!; try done.
  all: set_unfold; intuition (subst; congruence).
Qed.

(** X7: When both pipes open and the decoder is built but the engine's
    constructor throws, [Initialize] returns the failure code of the
    exception with the flag and the engine of the instance unchanged,
    but the decoder has been replaced: the instance holds the new one,
    whose input handle stays open, the handle of the previous decoder is
    closed, and the output handle is closed. *)
Theorem Initialize_engine_failure_replaces_decoder
    (env : Oracle) (InPipeName OutPipeName VtMode : wstring) (this : VtIo) (w : World)
    (e : exception)
    (Hc : consistent this w)
    (Hparse : SUCCEEDED ((ParseIoMode VtMode).1) = true)
    (Hin : CreateFileW_error env InPipeName GENERIC_READ = None)
    (Hout : CreateFileW_error env OutPipeName GENERIC_WRITE = None)
    (Hthread : VtInputThread_throws env = None)
    (Hengine : Engine_throws env = Some e) :
  let r := Initialize env InPipeName OutPipeName VtMode this w in
  ∃ hIn : HANDLE,
    (hIn ∉ handles w) ∧
    r.1.1 = exn_hr e ∧ FAILED (r.1.1) = true ∧
    _pVtInputThread (r.1.2) = Some {| _hFile := hIn; _started := false |} ∧
    _pVtRenderEngine (r.1.2) = _pVtRenderEngine this ∧
    _usingVt (r.1.2) = _usingVt this ∧
    handles (r.2) = {[hIn]} ∪ (handles w ∖ decoder_handle (_pVtInputThread this)).
Proof.
  intros r. subst r. unfold Initialize. revert Hparse.
  pose proof (exn_failed e) as Hfail.
  Initialize_handles env InPipeName OutPipeName VtMode this w Hc.
  all: simplify_eq.
  all: exists h.
  all: split_and!; try done.
  all: set_unfold; intuition (subst; congruence).
Qed.

(** ** Initialize followed by StartIfNeeded *)

(** X8: On a new instance, when the token is known, both pipes open, no
    constructor throws and the renderer accepts the engine, [Initialize]
    and then [StartIfNeeded] both return S_OK; the six calls made are the
    two opens, the two constructions, AddRenderEngine and Start, in this
    order; the renderer has gained exactly the engine of the resolved
    mode, the decoder is started, and the two pipe handles are open. *)
Theorem Initialize_then_StartIfNeeded
    (env1 env2 : Oracle) (InPipeName OutPipeName VtMode : wstring)
    (indeterminate : VtIoMode) (w : World)
    (Hparse : SUCCEEDED ((ParseIoMode VtMode).1) = true)
    (Hin : CreateFileW_error env1 InPipeName GENERIC_READ = None)
    (Hout : CreateFileW_error env1 OutPipeName GENERIC_WRITE = None)
    (Hthread : VtInputThread_throws env1 = None)
    (Hengine : Engine_throws env1 = None)
    (Hadd : AddRenderEngine_throws env2 = None) :
  ∃ (this' : VtIo) (w' : World) (hIn hOut : HANDLE) (engine : VtEngine),
    run [CallInitialize env1 InPipeName OutPipeName VtMode; CallStartIfNeeded env2]
        (VtIo_ctor indeterminate) w
      = Some ([S_OK; S_OK], this', w') ∧
    IsUsingVt this' = true ∧
    _IoMode this' = (ParseIoMode VtMode).2 ∧
    _pVtInputThread this' = Some {| _hFile := hIn; _started := true |} ∧
    _pVtRenderEngine this' = Some engine ∧
    engine_of ((ParseIoMode VtMode).2) hOut (gci env1) = Some engine ∧
    rgpEngines w' = rgpEngines w ++ [Some engine] ∧
    log w' = log w ++
      [EvCreateFileW InPipeName GENERIC_READ hIn;
       EvCreateFileW OutPipeName GENERIC_WRITE hOut;
       EvNewVtInputThread hIn;
       EvNewEngine ((ParseIoMode VtMode).2) hOut;
       EvAddRenderEngine (Some engine);
       EvStart hIn] ∧
    handles w' = {[hIn; hOut]} ∪ handles w.
Proof.
  unfold run, Initialize. revert Hparse.
  Initialize_cases env1 InPipeName OutPipeName VtMode w.
  all: try discriminate.
  all: try match goal with H : Some _ = None |- _ => discriminate H end.
  all: intros _.
  all: unfold StartIfNeeded, AddRenderEngine, Start, IsUsingVt;
    cbn [VtIo_ctor VtInputThread_dtor VtEngine_dtor _pVtInputThread _pVtRenderEngine
         _usingVt set_usingVt set_pVtRenderEngine set_pVtInputThread set_IoMode negb];
    rewrite ?unique_hfile_dtor_invalid, Hadd;
    cbn [mbind option_bind mret option_ret fst snd returned _hFile _IoMode
         _pVtInputThread _pVtRenderEngine _usingVt set_pVtInputThread].
  all: eexists _, _, (new_handle w), _, _.
  all: split; [reflexivity|].
  all: cbn [_usingVt _IoMode _pVtInputThread _pVtRenderEngine record rgpEngines log
            handles engine_of].
  all: split_and!; try reflexivity.
  all: try (by rewrite <- !app_assoc).
  all: apply set_eq; intros x; set_unfold; tauto.
Qed.

(** ** Initialize: what it leaves to StartIfNeeded *)

Lemma quiet_refl (w : World) : quiet w w.
Proof.
  split; [done|]. exists []. split; [by rewrite app_nil_r|].
  intros ev Hev. by apply elem_of_nil in Hev.
Qed.

Lemma quiet_step (w w1 : World) (X : gset HANDLE) (err : DWORD) (ev : Event) :
  (∀ p h, ev ≠ EvAddRenderEngine p ∧ ev ≠ EvStart h) →
  quiet w w1 →
  quiet w {| handles := X; last_error := err; rgpEngines := rgpEngines w1;
             log := log w1 ++ [ev] |}.
Proof.
  intros Hev (Hr & new & Hl & Hnew). split; [done|].
  exists (new ++ [ev]). cbn [log]. rewrite Hl, app_assoc. split; [done|].
  intros ev' Hin. apply elem_of_app in Hin. destruct Hin as [Hin | Hin]; [by apply Hnew|].
  apply list_elem_of_singleton in Hin. by subst.
Qed.

Lemma quiet_set (w w1 : World) (X : gset HANDLE) (err : DWORD) :
  quiet w w1 →
  quiet w {| handles := X; last_error := err; rgpEngines := rgpEngines w1;
             log := log w1 |}.
Proof. intros (Hr & new & Hl & Hnew). split; [done|]. by exists new. Qed.

Lemma quiet_record (w w1 : World) (ev : Event) :
  (∀ p h, ev ≠ EvAddRenderEngine p ∧ ev ≠ EvStart h) →
  quiet w w1 → quiet w (record ev w1).
Proof. intros Hev Hq. by apply quiet_step. Qed.

Lemma quiet_unique_hfile_dtor (w w1 : World) (h : unique_hfile) :
  quiet w w1 → quiet w (unique_hfile_dtor h w1).
Proof.
  intros Hq. unfold unique_hfile_dtor, CloseHandle.
  destruct (decide (h = INVALID_HANDLE_VALUE)); [done|].
  apply quiet_record; [done|]. by apply quiet_set.
Qed.

Lemma quiet_VtInputThread_dtor (w w1 : World) (p : option VtInputThread) :
  quiet w w1 → quiet w (VtInputThread_dtor p w1).
Proof. destruct p; [apply quiet_unique_hfile_dtor | done]. Qed.

Lemma quiet_VtEngine_dtor (w w1 : World) (p : option VtEngine) :
  quiet w w1 → quiet w (VtEngine_dtor p w1).
Proof. destruct p; [apply quiet_unique_hfile_dtor | done]. Qed.

(** X9: Whatever its outcome, [Initialize] neither registers an engine with
    the renderer nor starts a decoder: the renderer's engines are those
    before the call, no AddRenderEngine or Start call is made, and a
    decoder the call has put into the instance is not started. *)
Theorem Initialize_never_registers_or_starts
    (env : Oracle) (InPipeName OutPipeName VtMode : wstring) (this : VtIo) (w : World) :
  let r := Initialize env InPipeName OutPipeName VtMode this w in
  rgpEngines (r.2) = rgpEngines w ∧
  (∃ new, log (r.2) = log w ++ new ∧
          ∀ ev, ev ∈ new → ∀ p h, ev ≠ EvAddRenderEngine p ∧ ev ≠ EvStart h) ∧
  (∀ t, _pVtInputThread (r.1.2) = Some t →
        _pVtInputThread this = Some t ∨ _started t = false).
Proof.
  intros r. subst r. unfold Initialize.
  set (P := λ x : ReturnSite * VtIo * World,
         quiet w (x.2) ∧
         ∀ t, _pVtInputThread (x.1.2) = Some t →
              _pVtInputThread this = Some t ∨ _started t = false).
  assert (HP : P (Initialize_at env InPipeName OutPipeName VtMode this w)).
  { Initialize_cases env InPipeName OutPipeName VtMode w.
    all: subst P; cbn beta; cbn [fst snd]; split.
    all: try (intros t' Ht'; cbn in Ht'; first [by left | injection Ht' as <-; by right]).
    all: repeat first
           [ apply quiet_unique_hfile_dtor
           | apply quiet_VtInputThread_dtor
           | apply quiet_VtEngine_dtor
           | apply quiet_record; [done|]
           | apply (quiet_step w w); [done|]
           | apply (quiet_set w w)
           | apply quiet_refl ]. }
  destruct (Initialize_at env InPipeName OutPipeName VtMode this w) as [[site this'] w'].
  destruct HP as [[Hr Hl] Ht]. by repeat split.
Qed.

(** ** Initialize on an instance that is already running *)

(** X10: [Initialize] has no guard against a second call.  When it succeeds
    on an instance whose engine is registered with the renderer, the
    renderer still lists that engine although the call has destroyed
    it: the pipe handle the engine held is closed, and the instance now
    holds another engine. *)
Theorem Initialize_again_leaves_destroyed_engine_registered
    (env : Oracle) (InPipeName OutPipeName VtMode : wstring) (this : VtIo) (w : World)
    (e : VtEngine)
    (Hc : consistent this w)
    (Hheld : _pVtRenderEngine this = Some e)
    (Hreg : Some e ∈ rgpEngines w)
    (Hparse : SUCCEEDED ((ParseIoMode VtMode).1) = true)
    (Hin : CreateFileW_error env InPipeName GENERIC_READ = None)
    (Hout : CreateFileW_error env OutPipeName GENERIC_WRITE = None)
    (Hthread : VtInputThread_throws env = None)
    (Hengine : Engine_throws env = None) :
  let r := Initialize env InPipeName OutPipeName VtMode this w in
  r.1.1 = S_OK ∧
  Some e ∈ rgpEngines (r.2) ∧
  (engine_hFile e ∉ handles (r.2)) ∧
  _pVtRenderEngine (r.1.2) ≠ Some e.
Proof.
  intros r. subst r. unfold Initialize. revert Hparse.
  Initialize_handles env InPipeName OutPipeName VtMode this w Hc.
  all: simplify_eq.
  all: cbn [rgpEngines].
  all: split_and!; try done.
  all: try (intros [= <-]; cbn [engine_hFile] in Het; apply Hf1, elem_of_union;
            by right).
  all: set_unfold; intuition (subst; congruence).
Qed.

(** ** The theorems of this part at concrete calls *)

Lemma new_instance_consistent (indeterminate : VtIoMode) (w : World) :
  INVALID_HANDLE_VALUE ∉ handles w → consistent (VtIo_ctor indeterminate) w.
Proof.
  intros Hinv. unfold consistent, owned, VtIo_ctor.
  cbn [_pVtInputThread _pVtRenderEngine _usingVt].
  split; [done|]. split; [|split; [by intros ? ? ? | by intros ?]].
  intros x Hx. apply elem_of_union in Hx.
  destruct Hx as [Hx | Hx]; by apply elem_of_empty in Hx.
Qed.

Lemma consistent_same_handles (this : VtIo) (w w' : World) :
  handles w' = handles w → consistent this w → consistent this w'.
Proof. unfold consistent. by intros ->. Qed.

(** A world without open handles. *)
Lemma empty_world_valid : INVALID_HANDLE_VALUE ∉ handles empty_world.
Proof. apply not_elem_of_empty. Qed.

Lemma reachable_instance_is_consistent_witness :
  ∃ hrs this' w',
    run [CallInitialize all_succeed conin conout (L "xterm");
         CallStartIfNeeded all_succeed;
         CallInitialize engine_out_of_memory conin conout (L "");
         CallStartIfNeeded renderer_out_of_memory]
        (VtIo_ctor INVALID) empty_world = Some (hrs, this', w') ∧
    consistent this' w'.
Proof. apply reachable_instance_is_consistent. exact empty_world_valid. Defined.

Lemma StartIfNeeded_twice_registers_twice_witness :
  let r := Initialize all_succeed conin conout (L "xterm") (VtIo_ctor INVALID) empty_world in
  ∃ this1 w1 w2,
    StartIfNeeded all_succeed (r.1.2) (r.2) = Some (S_OK, this1, w1) ∧
    StartIfNeeded all_succeed this1 w1 = Some (S_OK, this1, w2) ∧
    rgpEngines w2 =
      rgpEngines (r.2) ++ [_pVtRenderEngine (r.1.2); _pVtRenderEngine (r.1.2)].
Proof.
  intros r.
  destruct (StartIfNeeded_twice_registers_twice all_succeed all_succeed (r.1.2) (r.2)
              {| _hFile := 1; _started := false |} eq_refl eq_refl eq_refl eq_refl)
    as (this1 & w1 & w2 & H1 & H2 & H3 & _).
  by exists this1, w1, w2.
Defined.

Lemma Initialize_success_handle_balance_witness :
  let r := Initialize all_succeed conin conout (L "") (VtIo_ctor INVALID) empty_world in
  ∃ hIn hOut : HANDLE,
    hIn ≠ hOut ∧ r.1.1 = S_OK ∧
    handles (r.2) = {[hIn; hOut]} ∪ (handles empty_world ∖ owned (VtIo_ctor INVALID)).
Proof.
  intros r.
  destruct (Initialize_success_handle_balance all_succeed conin conout (L "")
              (VtIo_ctor INVALID) empty_world
              (new_instance_consistent INVALID empty_world empty_world_valid)
              eq_refl eq_refl eq_refl eq_refl eq_refl)
    as (hIn & hOut & _ & _ & Hne & Hok & _ & Hh).
  by exists hIn, hOut.
Defined.

Lemma Initialize_engine_failure_replaces_decoder_witness :
  let r := Initialize engine_out_of_memory conin conout (L "xterm")
             (VtIo_ctor INVALID) empty_world in
  ∃ hIn : HANDLE,
    r.1.1 = E_OUTOFMEMORY ∧
    _pVtInputThread (r.1.2) = Some {| _hFile := hIn; _started := false |} ∧
    handles (r.2) = {[hIn]} ∪ (handles empty_world ∖ ∅).
Proof.
  intros r.
  destruct (Initialize_engine_failure_replaces_decoder engine_out_of_memory conin conout
              (L "xterm") (VtIo_ctor INVALID) empty_world bad_alloc
              (new_instance_consistent INVALID empty_world empty_world_valid)
              eq_refl eq_refl eq_refl eq_refl eq_refl)
    as (hIn & _ & Hhr & _ & Ht & _ & _ & Hh).
  by exists hIn.
Defined.

Lemma Initialize_then_StartIfNeeded_witness :
  ∃ (this' : VtIo) (w' : World) (engine : VtEngine),
    run [CallInitialize all_succeed conin conout (L "win-telnet");
         CallStartIfNeeded all_succeed] (VtIo_ctor INVALID) empty_world
      = Some ([S_OK; S_OK], this', w') ∧
    rgpEngines w' = rgpEngines empty_world ++ [Some engine].
Proof.
  destruct (Initialize_then_StartIfNeeded all_succeed all_succeed conin conout
              (L "win-telnet") INVALID empty_world
              eq_refl eq_refl eq_refl eq_refl eq_refl eq_refl)
    as (this' & w' & hIn & hOut & engine & Hrun & _ & _ & _ & _ & _ & Hreg & _).
  by exists this', w', engine.
Defined.

Lemma Initialize_failure_before_engine_is_atomic_witness :
  let r := Initialize (missing_pipe conin) conin conout (L "xterm")
             (VtIo_ctor INVALID) empty_world in
  FAILED (r.1.1) = true ∧ handles (r.2) = handles empty_world.
Proof.
  intros r.
  destruct (Initialize_failure_before_engine_is_atomic (missing_pipe conin) conin conout
              (L "xterm") (VtIo_ctor INVALID) empty_world
              (or_intror (or_introl (ex_intro _ ERROR_FILE_NOT_FOUND eq_refl))))
    as (Hfail & Hh & _).
  by split.
Defined.

(** The instance [Initialize] configured for "xterm", in a world where
    its engine is registered with the renderer. *)
Lemma Initialize_again_leaves_destroyed_engine_registered_witness :
  let r0 := Initialize all_succeed conin conout (L "xterm") (VtIo_ctor INVALID) empty_world in
  let w := {| handles := handles (r0.2); last_error := last_error (r0.2);
              rgpEngines := [Some (XtermEngine 2 (GetColorTable console) 16)];
              log := log (r0.2) |} in
  let r := Initialize all_succeed conin conout (L "") (r0.1.2) w in
  _pVtRenderEngine (r0.1.2) = Some (XtermEngine 2 (GetColorTable console) 16) ∧
  r.1.1 = S_OK ∧
  Some (XtermEngine 2 (GetColorTable console) 16) ∈ rgpEngines (r.2) ∧
  (2 ∉ handles (r.2)).
Proof.
  intros r0 w r. split; [reflexivity|].
  assert (Hc : consistent (r0.1.2) w).
  { apply (consistent_same_handles _ (r0.2)); [reflexivity|].
    apply Initialize_consistent, new_instance_consistent, empty_world_valid. }
  destruct (Initialize_again_leaves_destroyed_engine_registered all_succeed conin conout
              (L "") (r0.1.2) w (XtermEngine 2 (GetColorTable console) 16)
              Hc eq_refl (list_elem_of_here _ _) eq_refl eq_refl eq_refl eq_refl eq_refl)
    as (Hok & Hreg & Hclosed & _).
  by repeat split.
Defined.
